(** * beamer-cli: the text-to-text core (linter, Markdown parser, diagram
      translator, HTML exporter) as a shallow embedding.

    JavaScript strings are sequences of UTF-16 code units; they are modelled
    as [list N].  Every string primitive and every regular expression the
    source uses is written out as an executable function on such lists. *)

From Stdlib Require Import String Ascii DecimalString.
From Stdlib Require Import List Sorted Permutation NArith ZArith Arith Bool Lia.
Import ListNotations.

(* ================================================================== *)
(** ** JavaScript string primitives *)
(* ================================================================== *)

Module Js.

Definition str := list N.

(** An ASCII literal of the source, as code units. *)
Definition lit (s : string) : str := map N_of_ascii (list_ascii_of_string s).

Definition NL : N := 10.
Definition CR : N := 13.
Definition QUOTE : N := 34.

Fixpoint eqb (a b : str) : bool :=
  match a, b with
  | [], [] => true
  | x :: a', y :: b' => (x =? y)%N && eqb a' b'
  | _, _ => false
  end.

Definition str_dec : forall a b : str, {a = b} + {a <> b} :=
  list_eq_dec N.eq_dec.

(** [s.startsWith(p)] *)
Fixpoint startsWith (s p : str) {struct p} : bool :=
  match p with
  | [] => true
  | a :: p' =>
      match s with
      | [] => false
      | b :: s' => (b =? a)%N && startsWith s' p'
      end
  end.

(** [s.includes(p)] *)
Fixpoint includes (s p : str) : bool :=
  startsWith s p ||
  match s with
  | [] => false
  | _ :: s' => includes s' p
  end.

(** [s.indexOf(p)]; the source's -1 is [None]. *)
Fixpoint indexOf (s p : str) : option nat :=
  if startsWith s p then Some 0
  else match s with
       | [] => None
       | _ :: s' => option_map S (indexOf s' p)
       end.

(** [s.slice(0, n)] and [s.slice(n)] for a non-negative [n]. *)
Definition slice_to (s : str) (n : nat) : str := firstn n s.
Definition slice_from (s : str) (n : nat) : str := skipn n s.

(** [s.split('\n')]: never empty. *)
Fixpoint split_nl (s : str) : list str :=
  match s with
  | [] => [[]]
  | c :: s' =>
      if (c =? NL)%N then [] :: split_nl s'
      else match split_nl s' with
           | l :: ls => (c :: l) :: ls
           | [] => [[c]]
           end
  end.

(** [parts.join(sep)] *)
Fixpoint join (sep : str) (parts : list str) : str :=
  match parts with
  | [] => []
  | [p] => p
  | p :: ps => p ++ sep ++ join sep ps
  end.

(** Line terminators: what [.] refuses to match. *)
Definition is_line_terminator (c : N) : bool :=
  ((c =? 10) || (c =? 13) || (c =? 8232) || (c =? 8233))%N.

(** [\s], which is also what [trim] removes: WhiteSpace and LineTerminator. *)
Definition is_space (c : N) : bool :=
  ((c =? 9) || (c =? 10) || (c =? 11) || (c =? 12) || (c =? 13) || (c =? 32)
   || (c =? 160) || (c =? 5760) || ((8192 <=? c) && (c <=? 8202))
   || (c =? 8232) || (c =? 8233) || (c =? 8239) || (c =? 8287)
   || (c =? 12288) || (c =? 65279))%N.

Definition is_digit (c : N) : bool := ((48 <=? c) && (c <=? 57))%N.

(** [[a-zA-Z]] *)
Definition is_letter (c : N) : bool :=
  (((65 <=? c) && (c <=? 90)) || ((97 <=? c) && (c <=? 122)))%N.

(** [\w] *)
Definition is_word (c : N) : bool := is_letter c || is_digit c || (c =? 95)%N.

Fixpoint dropWhile (p : N -> bool) (s : str) : str :=
  match s with
  | [] => []
  | c :: s' => if p c then dropWhile p s' else s
  end.

Fixpoint takeWhile (p : N -> bool) (s : str) : str :=
  match s with
  | [] => []
  | c :: s' => if p c then c :: takeWhile p s' else []
  end.

(** [s.trim()] *)
Definition trim (s : str) : str :=
  rev (dropWhile is_space (rev (dropWhile is_space s))).

(** [String(n)] for an integer. *)
Definition Number_toString (n : Z) : str :=
  lit (NilEmpty.string_of_int (Z.to_int n)).

(** [s.replace(re, ...)] with the [g] flag, for a regular expression that
    never matches the empty string and looks at nothing before the match
    position: [m suffix] is [Some (replacement, matched length)] when the
    expression matches at the start of [suffix].  After a match the scan
    resumes behind it ([skip] counts the code units still to pass over). *)
Fixpoint replace_go (m : str -> option (str * nat)) (skip : nat) (s : str) : str :=
  match s with
  | [] => []
  | c :: s' =>
      match skip with
      | S k => replace_go m k s'
      | O =>
          match m s with
          | Some (r, len) => r ++ replace_go m (len - 1) s'
          | None => c :: replace_go m 0 s'
          end
      end
  end.

Definition replace_all (m : str -> option (str * nat)) (s : str) : str :=
  replace_go m 0 s.

(** A literal pattern, as in [.replace(/_/g, r)] or [replaceAll(p, r)]
    with a non-empty [p]. *)
Definition m_lit (p r : str) (s : str) : option (str * nat) :=
  if startsWith s p then Some (r, length p) else None.

(** [s.match(re)] without the [g] flag: the leftmost position where the
    expression matches; [m] is the matcher at a position. *)
Fixpoint search {A : Type} (m : str -> option A) (s : str) : option A :=
  match m s with
  | Some r => Some r
  | None => match s with
            | [] => None
            | _ :: s' => search m s'
            end
  end.

(** [array.forEach((x, idx) => ...)] as a fold that threads a state. *)
Fixpoint forEach_from {A St : Type} (f : St -> A -> nat -> St) (l : list A)
         (idx : nat) (st : St) : St :=
  match l with
  | [] => st
  | x :: l' => forEach_from f l' (S idx) (f st x idx)
  end.

Definition forEach {A St : Type} (f : St -> A -> nat -> St) (l : list A) (st : St) : St :=
  forEach_from f l 0 st.

End Js.

Import Js.

(* ================================================================== *)
(** ** src/commands/lint.ts *)
(* ================================================================== *)

Module Lint.

Inductive Severity := error | warning.

Definition Severity_eqb (a b : Severity) : bool :=
  match a, b with
  | error, error | warning, warning => true
  | _, _ => false
  end.

Record LintIssue := mkIssue {
  line : Z;
  severity : Severity;
  message : str;
  rule : str
}.

(** *** Presence checks *)

Definition missingDocumentClass (content : str) : option LintIssue :=
  if negb (includes content (lit "\documentclass"))
  then Some (mkIssue 1 error (lit "Missing \documentclass") (lit "document-class"))
  else None.

Definition missingBeginDocument (content : str) : option LintIssue :=
  if negb (includes content (lit "\begin{document}"))
  then Some (mkIssue 1 error (lit "Missing \begin{document}") (lit "begin-document"))
  else None.

Definition missingEndDocument (content : str) : option LintIssue :=
  if negb (includes content (lit "\end{document}"))
  then Some (mkIssue 1 error (lit "Missing \end{document}") (lit "end-document"))
  else None.

(** *** Brace balance *)

Definition LBRACE : N := 123.
Definition RBRACE : N := 125.
Definition PERCENT : N := 37.

Definition unmatched_closing (idx : nat) : LintIssue :=
  mkIssue (Z.of_nat idx + 1) error (lit "Unmatched closing brace }") (lit "brace-balance").

Definition unclosed (braceCount : Z) (nlines : nat) : LintIssue :=
  mkIssue (Z.of_nat nlines) error
          (Number_toString braceCount ++ lit " unclosed brace(s) {")
          (lit "brace-balance").

(** The part of a line before the first [%]. *)
Definition activePart (line : str) : str :=
  match indexOf line [PERCENT] with
  | Some commentIdx => slice_to line commentIdx
  | None => line
  end.

(** One turn of the inner [for (const char of activePart)] loop.  The loop
    walks code points; a code point outside the BMP is never a brace, so
    walking code units visits the same braces. *)
Definition brace_char (idx : nat) (st : Z * list LintIssue) (char : N)
  : Z * list LintIssue :=
  let '(braceCount, issues) := st in
  let braceCount := if (char =? LBRACE)%N then (braceCount + 1)%Z else braceCount in
  let braceCount := if (char =? RBRACE)%N then (braceCount - 1)%Z else braceCount in
  if (braceCount <? 0)%Z
  then (0%Z, issues ++ [unmatched_closing idx])
  else (braceCount, issues).

Definition brace_line (st : Z * list LintIssue) (line : str) (idx : nat)
  : Z * list LintIssue :=
  fold_left (brace_char idx) (activePart line) st.

Definition unmatchedBraces (lines : list str) : list LintIssue :=
  let '(braceCount, issues) := forEach brace_line lines (0%Z, []) in
  if (braceCount >? 0)%Z
  then issues ++ [unclosed braceCount (length lines)]
  else issues.

(** *** Environment balance *)

(** [[^c]*c] at the start of [s]: the run before the first [c], and what
    follows that [c]. *)
Fixpoint until (c : N) (s : str) : option (str * str) :=
  match s with
  | [] => None
  | x :: s' =>
      if (x =? c)%N then Some ([], s')
      else match until c s' with
           | Some (r, t) => Some (x :: r, t)
           | None => None
           end
  end.

(** [/\\begin\{(\w+)\}/] (for [kw = "\begin{"]) at the start of [s]: the
    greedy [\w+] takes the whole run of word characters, and nothing
    shorter can be followed by the closing brace.  Gives the name and the
    length of the match. *)
Definition env_at (kw : str) (s : str) : option (str * nat) :=
  if startsWith s kw then
    let r := skipn (length kw) s in
    let name := takeWhile is_word r in
    match name, skipn (length name) r with
    | _ :: _, c :: _ =>
        if (c =? RBRACE)%N then Some (name, length kw + length name + 1) else None
    | _, _ => None
    end
  else None.

(** [line.match(re)] with the [g] flag, each match mapped through [m]. *)
Fixpoint matchAll_go {A : Type} (m : str -> option (A * nat)) (skip : nat)
         (s : str) : list A :=
  match s with
  | [] => []
  | _ :: s' =>
      match skip with
      | S k => matchAll_go m k s'
      | O =>
          match m s with
          | Some (a, len) => a :: matchAll_go m (len - 1) s'
          | None => matchAll_go m 0 s'
          end
      end
  end.

Definition matchAll {A : Type} (m : str -> option (A * nat)) (s : str) : list A :=
  matchAll_go m 0 s.

(** The stack is an array: [push] appends, [pop] takes the last entry. *)
Definition EnvStack := list (str * Z).

Definition pop (stack : EnvStack) : option ((str * Z) * EnvStack) :=
  match rev stack with
  | [] => None
  | top :: r => Some (top, rev r)
  end.

Definition env_end (idx : nat) (st : EnvStack * list LintIssue) (name : str)
  : EnvStack * list LintIssue :=
  let '(stack, issues) := st in
  match pop stack with
  | None =>
      (stack,
       issues ++ [mkIssue (Z.of_nat idx + 1) error
                          (lit "\end{" ++ name ++ lit "} without matching \begin")
                          (lit "env-balance")])
  | Some ((top_name, top_line), stack') =>
      if negb (Js.eqb top_name name)
      then (stack',
            issues ++ [mkIssue (Z.of_nat idx + 1) error
                               (lit "\end{" ++ name ++ lit "} doesn't match \begin{"
                                    ++ top_name ++ lit "} from line "
                                    ++ Number_toString top_line)
                               (lit "env-balance")])
      else (stack', issues)
  end.

Definition env_line (st : EnvStack * list LintIssue) (line : str) (idx : nat)
  : EnvStack * list LintIssue :=
  let beginMatch := matchAll (env_at (lit "\begin{")) line in
  let endMatch := matchAll (env_at (lit "\end{")) line in
  let '(stack, issues) := st in
  let stack := fold_left (fun stk name => stk ++ [(name, Z.of_nat idx + 1)%Z])
                         beginMatch stack in
  fold_left (env_end idx) endMatch (stack, issues).

Definition unmatchedEnvironments (lines : list str) : list LintIssue :=
  let '(stack, issues) := forEach env_line lines ([], []) in
  issues ++ map (fun e => mkIssue (snd e) error
                                  (lit "\begin{" ++ fst e ++ lit "} never closed")
                                  (lit "env-balance")) stack.

(** *** Frame without title *)

(** [lines[idx + 1]?.includes(p)], read as a condition: [undefined] past
    the last line counts as false. *)
Definition next_includes (lines : list str) (idx : nat) (p : str) : bool :=
  match nth_error lines (idx + 1) with
  | Some l => includes l p
  | None => false
  end.

Definition frame_title_issue (idx : nat) : LintIssue :=
  mkIssue (Z.of_nat idx + 1) warning (lit "Frame without title") (lit "frame-title").

Definition frame_line (lines : list str) (issues : list LintIssue) (line : str)
           (idx : nat) : list LintIssue :=
  if includes line (lit "\begin{frame}")
     && negb (includes line (lit "{"))
     && negb (next_includes lines idx (lit "\frametitle"))
     && negb (next_includes lines idx (lit "\titlepage"))
  then
    if negb (includes line (lit "[fragile]"))
       && negb (includes line (lit "[plain]"))
       && negb (includes line (lit "[standout]"))
    then issues ++ [frame_title_issue idx]
    else issues
  else issues.

Definition frameWithoutTitle (lines : list str) : list LintIssue :=
  forEach (frame_line lines) lines [].

(** *** Unescaped underscore *)

Definition DOLLAR : N := 36.
Definition BACKSLASH : N := 92.
Definition UNDERSCORE : N := 95.

(** [/\$[^$]+\$/] *)
Definition m_inline_math (s : str) : option (str * nat) :=
  match s with
  | c :: r =>
      if (c =? DOLLAR)%N then
        match until DOLLAR r with
        | Some (x :: body, _) => Some ([], 1 + length (x :: body) + 1)
        | _ => None
        end
      else None
  | [] => None
  end.

(** [/\\texttt\{[^}]+\}/] *)
Definition m_texttt (s : str) : option (str * nat) :=
  let kw := lit "\texttt{" in
  if startsWith s kw then
    match until RBRACE (skipn (length kw) s) with
    | Some (x :: body, _) => Some ([], length kw + length (x :: body) + 1)
    | _ => None
    end
  else None.

(** [/\\[a-zA-Z]+/] *)
Definition m_command (s : str) : option (str * nat) :=
  match s with
  | c :: r =>
      if (c =? BACKSLASH)%N then
        match takeWhile is_letter r with
        | [] => None
        | name => Some ([], 1 + length name)
        end
      else None
  | [] => None
  end.

Definition strip_line (line : str) : str :=
  replace_all m_command
    (replace_all (m_lit (lit "\_") [])
       (replace_all m_texttt
          (replace_all m_inline_math line))).

Definition underscore_issue (idx : nat) : LintIssue :=
  mkIssue (Z.of_nat idx + 1) warning
          (lit "Unescaped underscore (use \_ or $var_x$)") (lit "underscore").

Definition underscore_line (st : bool * list LintIssue) (line : str) (idx : nat)
  : bool * list LintIssue :=
  let '(inLstlisting, issues) := st in
  let inLstlisting :=
    if includes line (lit "\begin{lstlisting}") || includes line (lit "\begin{verbatim}")
    then true else inLstlisting in
  let inLstlisting :=
    if includes line (lit "\end{lstlisting}") || includes line (lit "\end{verbatim}")
    then false else inLstlisting in
  if inLstlisting then (inLstlisting, issues)
  else if includes (strip_line line) [UNDERSCORE]
       then (inLstlisting, issues ++ [underscore_issue idx])
       else (inLstlisting, issues).

Definition underscoreInText (lines : list str) : list LintIssue :=
  snd (forEach underscore_line lines (false, [])).

(** *** The command *)

Definition opt_issue (o : option LintIssue) : list LintIssue :=
  match o with
  | Some i => [i]
  | None => []
  end.

(** [issues.sort((a, b) => a.line - b.line)]: the sort is stable. *)
Fixpoint sort_insert (x : LintIssue) (l : list LintIssue) : list LintIssue :=
  match l with
  | [] => [x]
  | y :: r => if (line x <=? line y)%Z then x :: y :: r else y :: sort_insert x r
  end.

Definition sort_by_line (l : list LintIssue) : list LintIssue :=
  fold_right sort_insert [] l.

Definition collect (content : str) : list LintIssue :=
  let lines := split_nl content in
  opt_issue (missingDocumentClass content)
  ++ opt_issue (missingBeginDocument content)
  ++ opt_issue (missingEndDocument content)
  ++ unmatchedBraces lines
  ++ unmatchedEnvironments lines
  ++ frameWithoutTitle lines
  ++ underscoreInText lines.

Record LintRun := mkRun {
  issues : list LintIssue;
  errors : list LintIssue;
  warnings : list LintIssue;
  (** [Some 1] when [process.exit(1)] is reached, [None] when the command
      returns normally. *)
  exit : option Z
}.

(** [lint], from the point where the file has been read; the report lines
    written to the console are not part of the model. *)
Definition lint (content : str) : LintRun :=
  let issues := sort_by_line (collect content) in
  let errors := filter (fun i => Severity_eqb (severity i) error) issues in
  let warnings := filter (fun i => Severity_eqb (severity i) warning) issues in
  mkRun issues errors warnings
        (if (0 <? length errors)%nat then Some 1%Z else None).

End Lint.

(* ================================================================== *)
(** ** src/commands/watch.ts: the Markdown converter ([slides from-md]) *)
(* ================================================================== *)

Module FromMd.

(** *** mermaidToTikz *)

(** A JavaScript [Map]: entries in insertion order; [set] on a key that is
    present replaces the value where the entry stands. *)
Definition NodeMap := list (str * str).

Fixpoint Map_set (m : NodeMap) (k v : str) : NodeMap :=
  match m with
  | [] => [(k, v)]
  | (k', v') :: r =>
      if Js.eqb k' k then (k', v) :: r else (k', v') :: Map_set r k v
  end.

Fixpoint Map_get (m : NodeMap) (k : str) : option str :=
  match m with
  | [] => None
  | (k', v') :: r => if Js.eqb k' k then Some v' else Map_get r k
  end.

Definition Map_has (m : NodeMap) (k : str) : bool :=
  match Map_get m k with
  | Some _ => true
  | None => false
  end.

Definition Map_keys (m : NodeMap) : list str := map fst m.

Definition LBRACKET : N := 91.
Definition RBRACKET : N := 93.

(** [(?:\[([^\]]+)\])?] at the start of [s]: the label, if the group
    matches, and what follows the group. *)
Definition opt_label (s : str) : option str * str :=
  match s with
  | c :: r =>
      if (c =? LBRACKET)%N then
        match Lint.until RBRACKET r with
        | Some (x :: lab, rest) => (Some (x :: lab), rest)
        | _ => (None, s)
        end
      else (None, s)
  | [] => (None, s)
  end.

(** [/(\w+)(?:\[([^\]]+)\])?\s*-->\s*(\w+)(?:\[([^\]]+)\])?/] at the start
    of [s].  Every greedy part takes its whole run: a shorter [\w+] or
    [\s*] leaves a character the next part refuses, and dropping a
    bracket group that matched leaves the bracket before the arrow. *)
Definition edge_at (s : str) : option (str * option str * str * option str) :=
  match takeWhile is_word s with
  | [] => None
  | fromId =>
      let '(fromLabel, r1) := opt_label (skipn (length fromId) s) in
      let r2 := dropWhile is_space r1 in
      if startsWith r2 (lit "-->") then
        let r3 := dropWhile is_space (skipn 3 r2) in
        match takeWhile is_word r3 with
        | [] => None
        | toId =>
            let '(toLabel, _) := opt_label (skipn (length toId) r3) in
            Some (fromId, fromLabel, toId, toLabel)
        end
      else None
  end.

Definition edgeMatch (line : str) := search edge_at line.

(** [/(\w+)\[([^\]]+)\]/] at the start of [s]. *)
Definition node_at (s : str) : option (str * str) :=
  match takeWhile is_word s with
  | [] => None
  | id =>
      match opt_label (skipn (length id) s) with
      | (Some label, _) => Some (id, label)
      | (None, _) => None
      end
  end.

Definition nodeMatch (line : str) := search node_at line.

Definition Edge := (str * str * str)%type.

(** The body of the loop over [lines.slice(1)]. *)
Definition graph_line (st : NodeMap * list Edge) (line : str)
  : NodeMap * list Edge :=
  let '(nodes, edges) := st in
  match edgeMatch line with
  | Some (fromId, fromLabel, toId, toLabel) =>
      let nodes := match fromLabel with
                   | Some l => Map_set nodes fromId l
                   | None => nodes
                   end in
      let nodes := match toLabel with
                   | Some l => Map_set nodes toId l
                   | None => nodes
                   end in
      let nodes := if negb (Map_has nodes fromId)
                   then Map_set nodes fromId fromId else nodes in
      let nodes := if negb (Map_has nodes toId)
                   then Map_set nodes toId toId else nodes in
      (nodes, edges ++ [(fromId, toId, [])])
  | None =>
      match nodeMatch line with
      | Some (id, label) => (Map_set nodes id label, edges)
      | None => (nodes, edges)
      end
  end.

Definition parse_graph (lines : list str) : NodeMap * list Edge :=
  fold_left graph_line (tl lines) ([], []).

(** Node placement: [(tikz, prevNode)] after each node. *)
Definition place_node (direction : str) (st : str * str) (n : str * str)
  : str * str :=
  let '(tikz, prevNode) := st in
  let '(id, label) := n in
  if Js.eqb prevNode []
  then (tikz ++ lit "  \node[box] (" ++ id ++ lit ") {" ++ label ++ lit "};" ++ [NL], id)
  else (tikz ++ lit "  \node[box, " ++ direction ++ lit "=of " ++ prevNode
             ++ lit "] (" ++ id ++ lit ") {" ++ label ++ lit "};" ++ [NL], id).

Definition draw_edge (tikz : str) (e : Edge) : str :=
  let '(from, to, _) := e in
  tikz ++ lit "  \draw[->] (" ++ from ++ lit ") -- (" ++ to ++ lit ");" ++ [NL].

Definition mermaidToTikz (mermaid : str) : str :=
  let lines := split_nl (trim mermaid) in
  let firstLine := trim (hd [] lines) in
  let isLR := includes firstLine (lit "LR") || includes firstLine (lit "-->") in
  let direction := if isLR then lit "right" else lit "below" in
  let '(nodes, edges) := parse_graph lines in
  match nodes with
  | [] => lit "% Could not parse mermaid diagram" ++ [NL]
  | _ =>
      let tikz := lit "\begin{tikzpicture}[node distance=2cm, auto," ++ [NL] in
      let tikz := tikz ++ lit "  box/.style={draw, rounded corners, minimum width=2cm, minimum height=0.8cm}]" ++ [NL] in
      let '(tikz, _) := fold_left (place_node direction) nodes (tikz, []) in
      let tikz := fold_left draw_edge edges tikz in
      tikz ++ lit "\end{tikzpicture}"
  end.

(** *** parseMarkdown *)

Record Slide := mkSlide {
  title : str;
  content : list str;
  notes : list str
}.

(** [Record<string, string>]: the own properties of the object, in the
    order JavaScript keeps them (keys that are array indices first, in
    ascending order; the other keys in the order of their creation). *)
Definition Meta := list (str * str).

(** The value of a run of decimal digits. *)
Definition digits_value (k : str) : N :=
  fold_left (fun acc c => (acc * 10 + (c - 48))%N) k 0%N.

(** The array index a key stands for: a canonical decimal numeral below
    2^32 - 1. *)
Definition array_index (k : str) : option N :=
  match k with
  | [] => None
  | c :: r =>
      if forallb is_digit k && (negb (c =? 48)%N || Js.eqb r [])
      then if (digits_value k <=? 4294967294)%N then Some (digits_value k) else None
      else None
  end.

(** A new array-index key [k] (of value [n]) takes its place among the
    array-index keys, in front of the other keys. *)
Fixpoint Meta_insert (m : Meta) (n : N) (k v : str) : Meta :=
  match m with
  | [] => [(k, v)]
  | (k', v') :: r =>
      match array_index k' with
      | Some n' =>
          if (n <? n')%N then (k, v) :: (k', v') :: r
          else (k', v') :: Meta_insert r n k v
      | None => (k, v) :: (k', v') :: r
      end
  end.

(** [meta[k] = v] for a string [v].  Assigning a string to [__proto__]
    creates no property and changes nothing. *)
Definition Meta_set (m : Meta) (k v : str) : Meta :=
  if Js.eqb k (lit "__proto__") then m
  else match array_index k with
       | Some n => if Map_has m k then Map_set m k v else Meta_insert m n k v
       | None => Map_set m k v
       end.

Record PState := mkState {
  slides : list Slide;
  meta : Meta;
  currentSlide : option Slide;
  inFrontmatter : bool;
  inCodeBlock : bool;
  inNotes : bool
}.

Definition COLON : N := 58.

(** [/^(\w+):\s*(.+)$/] on a whole line.  [\s*] is greedy; when it has
    swallowed everything up to the end it gives its last code unit back
    to [.+]. *)
Definition frontmatter_kv (line : str) : option (str * str) :=
  match takeWhile is_word line with
  | [] => None
  | key =>
      match skipn (length key) line with
      | c :: r =>
          if (c =? COLON)%N then
            let ws := takeWhile is_space r in
            match skipn (length ws) r with
            | x :: t =>
                if forallb (fun u => negb (is_line_terminator u)) (x :: t)
                then Some (key, x :: t) else None
            | [] =>
                match rev ws with
                | w :: _ => if is_line_terminator w then None else Some (key, [w])
                | [] => None
                end
            end
          else None
      | [] => None
      end
  end.

Definition push_slide (slides : list Slide) (cur : option Slide) : list Slide :=
  match cur with
  | Some s => slides ++ [s]
  | None => slides
  end.

Definition SLIDE_BREAK : str := lit "---".
Definition FENCE : str := lit "```".

(** The body of the [for] loop over the lines, with every [continue]
    as the end of its branch. *)
Definition step (st : PState) (line : str) (i : nat) : PState :=
  if (i =? 0)%nat && Js.eqb line SLIDE_BREAK then
    mkState (slides st) (meta st) (currentSlide st) true (inCodeBlock st) (inNotes st)
  else if inFrontmatter st then
    if Js.eqb line SLIDE_BREAK then
      mkState (slides st) (meta st) (currentSlide st) false (inCodeBlock st) (inNotes st)
    else
      match frontmatter_kv line with
      | Some (k, v) =>
          mkState (slides st) (Meta_set (meta st) k v) (currentSlide st)
                  (inFrontmatter st) (inCodeBlock st) (inNotes st)
      | None => st
      end
  else
    let inCodeBlock' :=
      if startsWith line FENCE then negb (inCodeBlock st) else inCodeBlock st in
    if negb inCodeBlock' && Js.eqb line SLIDE_BREAK then
      mkState (push_slide (slides st) (currentSlide st)) (meta st) None
              (inFrontmatter st) inCodeBlock' false
    else if startsWith line (lit "Note:") || startsWith line (lit "Notes:") then
      mkState (slides st) (meta st) (currentSlide st) (inFrontmatter st) inCodeBlock' true
    else if negb inCodeBlock' && startsWith line (lit "## ") then
      mkState (push_slide (slides st) (currentSlide st)) (meta st)
              (Some (mkSlide (trim (slice_from line 3)) [] []))
              (inFrontmatter st) inCodeBlock' false
    else if negb inCodeBlock' && startsWith line (lit "# ")
            && negb (startsWith line (lit "## ")) then
      let meta' := match Map_get (meta st) (lit "title") with
                   | Some t => Meta_set (meta st) (lit "title") t
                   | None => Meta_set (meta st) (lit "title") (trim (slice_from line 2))
                   end in
      mkState (slides st) meta' (currentSlide st) (inFrontmatter st) inCodeBlock'
              (inNotes st)
    else
      match currentSlide st with
      | Some s =>
          if inNotes st
          then mkState (slides st) (meta st)
                       (Some (mkSlide (title s) (content s) (notes s ++ [line])))
                       (inFrontmatter st) inCodeBlock' (inNotes st)
          else mkState (slides st) (meta st)
                       (Some (mkSlide (title s) (content s ++ [line]) (notes s)))
                       (inFrontmatter st) inCodeBlock' (inNotes st)
      | None =>
          mkState (slides st) (meta st) None (inFrontmatter st) inCodeBlock' (inNotes st)
      end.

Definition init : PState := mkState [] [] None false false false.

Definition parse_loop (lines : list str) : PState := forEach step lines init.

Definition parseMarkdown (md : str) : Meta * list Slide :=
  let st := parse_loop (split_nl md) in
  (meta st, push_slide (slides st) (currentSlide st)).

(** *** formatInlineMarkdown *)

(** [.*?] in front of the literal [close]: the number of code units the
    lazy dot takes, none of them a line terminator. *)
Fixpoint dot_lazy (close : str) (r : str) : option nat :=
  if startsWith r close then Some 0
  else match r with
       | [] => None
       | c :: r' =>
           if is_line_terminator c then None
           else option_map S (dot_lazy close r')
       end.

(** [/D(.+?)D/] for a literal delimiter [D], replaced by [cmd $1 }]. *)
Definition m_span (delim cmd : str) (s : str) : option (str * nat) :=
  if startsWith s delim then
    match skipn (length delim) s with
    | c :: r =>
        if is_line_terminator c then None
        else match dot_lazy delim r with
             | Some k =>
                 Some (cmd ++ (c :: firstn k r) ++ lit "}",
                       length delim + 1 + k + length delim)
             | None => None
             end
    | [] => None
    end
  else None.

Definition formatInlineMarkdown (text : str) : str :=
  replace_all (m_span (lit "`") (lit "\texttt{"))
    (replace_all (m_span (lit "*") (lit "\textit{"))
       (replace_all (m_span (lit "**") (lit "\textbf{")) text)).

(** *** handleEmojis *)

(** The keys of [emojiMap] as UTF-16 code units, in the order of the
    object literal, with their replacements. *)
Local Open Scope N_scope.

Definition emojiMap : list (str * str) :=
  [ ([9989], lit "[OK]");
    ([10060], lit "[X]");
    ([11088], lit "*");
    ([55357; 56613], lit "[!]");
    ([55357; 56481], lit "[i]");
    ([9888; 65039], lit "[!]");
    ([55357; 56525], lit "[>]");
    ([55356; 57225], []);
    ([55357; 56345], []);
    ([10024], []);
    ([55357; 56960], lit "[>]");
    ([55357; 56496], lit "[$]");
    ([55357; 56551], lit "[email]");
    ([55357; 56517], lit "[cal]");
    ([55356; 57286], lit "[#1]");
    ([55357; 56397], lit "[+]");
    ([55357; 56398], lit "[-]");
    ([10084; 65039], lit "[<3]");
    ([55356; 57124; 65039], []);
    ([9728; 65039], []);
    ([9925], []);
    ([55357; 56628], lit "[!]");
    ([55357; 57313], lit "[~]");
    ([55357; 57314], lit "[OK]");
    ([55357; 56615], []);
    ([55357; 56523], []);
    ([55357; 57042], []);
    ([55357; 56983], []);
    ([55358; 56702], []);
    ([55356; 57138], []);
    ([55356; 57312], []);
    ([55357; 56424; 8205; 55357; 56425; 8205; 55357; 56423; 8205; 55357; 56423], []);
    ([55356; 56826; 55356; 56824], lit "US");
    ([55356; 56814; 55356; 56819], lit "IN") ].

Local Close Scope N_scope.

Definition is_high_surrogate (c : N) : bool := ((55296 <=? c) && (c <=? 56319))%N.
Definition is_low_surrogate (c : N) : bool := ((56320 <=? c) && (c <=? 57343))%N.

Definition code_point (hi lo : N) : N :=
  (65536 + (hi - 55296) * 1024 + (lo - 56320))%N.

(** The character class of the stripping expression. *)
Definition in_emoji_ranges (cp : N) : bool :=
  (((127744 <=? cp) && (cp <=? 129535))
   || ((9728 <=? cp) && (cp <=? 9983))
   || ((9984 <=? cp) && (cp <=? 10175))
   || ((128512 <=? cp) && (cp <=? 128591))
   || ((128640 <=? cp) && (cp <=? 128767))
   || ((127456 <=? cp) && (cp <=? 127487)))%N.

(** The stripping [replace] carries the [u] flag: it walks code points,
    a surrogate pair being one of them. *)
Fixpoint strip_emoji (s : str) : str :=
  match s with
  | [] => []
  | c :: s' =>
      match s' with
      | lo :: s'' =>
          if is_high_surrogate c && is_low_surrogate lo then
            if in_emoji_ranges (code_point c lo) then strip_emoji s''
            else c :: lo :: strip_emoji s''
          else if in_emoji_ranges c then strip_emoji s'
               else c :: strip_emoji s'
      | [] => if in_emoji_ranges c then [] else [c]
      end
  end.

Definition handleEmojis (text : str) : str :=
  strip_emoji
    (fold_left (fun text e => replace_all (m_lit (fst e) (snd e)) text)
               emojiMap text).

(** *** escapeLatex *)

Definition esc (c : string) (r : string) (text : str) : str :=
  replace_all (m_lit (lit c) (lit r)) text.

Definition escapeLatex (text : str) : str :=
  let text := handleEmojis text in
  let text := esc "\" "\textbackslash{}" text in
  let text := esc "_" "\_" text in
  let text := esc "&" "\&" text in
  let text := esc "%" "\%" text in
  let text := esc "$" "\$" text in
  let text := esc "#" "\#" text in
  let text := esc "{" "\{" text in
  let text := esc "}" "\}" text in
  let text := esc "~" "\textasciitilde{}" text in
  let text := esc "^" "\textasciicircum{}" text in
  (* Undo escaping for LaTeX commands we just added *)
  let text := esc "\textbf\_{" "\textbf{" text in
  let text := esc "\textit\_{" "\textit{" text in
  esc "\texttt\_{" "\texttt{" text.

End FromMd.

(* ================================================================== *)
(** ** src/commands/export.ts *)
(* ================================================================== *)

Module ExportHtml.

Record Slide := mkSlide {
  title : str;
  content : str;
  notes : option str
}.

Definition LBRACKET : N := 91.
Definition RBRACKET : N := 93.
Definition LBRACE : N := 123.
Definition RBRACE : N := 125.
Definition BACKSLASH : N := 92.
Definition LT : N := 60.

(** [.*?\]] followed by the rest of an expression, [k]: the lazy dot is
    extended one code unit at a time (never over a line terminator) until
    a closing bracket is met behind which [k] matches.  The length
    returned counts from the start of [r]. *)
Fixpoint lazy_bracket {A : Type} (k : str -> option (A * nat)) (r : str)
  : option (A * nat) :=
  match (match r with
         | c :: r' => if (c =? RBRACKET)%N then k r' else None
         | [] => None
         end) with
  | Some (a, n) => Some (a, S n)
  | None =>
      match r with
      | [] => None
      | c :: r' =>
          if is_line_terminator c then None
          else match lazy_bracket k r' with
               | Some (a, n) => Some (a, S n)
               | None => None
               end
      end
  end.

(** [(?:\[.*?\])?] followed by [k]: the group is tried first, and the
    expression goes on without it when no way through the group matches. *)
Definition opt_group {A : Type} (k : str -> option (A * nat)) (r : str)
  : option (A * nat) :=
  match (match r with
         | c :: r' =>
             if (c =? LBRACKET)%N
             then match lazy_bracket k r' with
                  | Some (a, n) => Some (a, S n)
                  | None => None
                  end
             else None
         | [] => None
         end) with
  | Some x => Some x
  | None => k r
  end.

Definition BEGIN_FRAME : str := lit "\begin{frame}".
Definition END_FRAME : str := lit "\end{frame}".

(** The part of [frameRegex] behind the bracket group, at the start of
    [r]: an opening brace, the title group (greedy, anything but a closing
    brace), the closing brace, the lazy body group, and [\end{frame}].
    Gives title, body and length. *)
Definition frame_rest (r : str) : option ((str * str) * nat) :=
  match r with
  | c :: r1 =>
      if (c =? LBRACE)%N then
        match Lint.until RBRACE r1 with
        | Some (title, r2) =>
            match indexOf r2 END_FRAME with
            | Some k =>
                Some ((title, firstn k r2),
                      1 + length title + 1 + k + length END_FRAME)
            | None => None
            end
        | None => None
        end
      else None
  | [] => None
  end.

(** [frameRegex] at the start of [s]: the two groups, the text behind the
    match (where a note is looked for), and the length of the match. *)
Definition frame_at (s : str) : option ((str * str * str) * nat) :=
  if startsWith s BEGIN_FRAME then
    match opt_group frame_rest (skipn (length BEGIN_FRAME) s) with
    | Some ((title, body), n) =>
        let len := length BEGIN_FRAME + n in
        Some ((title, body, skipn len s), len)
    | None => None
    end
  else None.

(** [/\\KW\{([^}]+)\}/] for a command [kw = "\KW{"], replaced by
    [open $1 close]. *)
Definition m_wrap (kw open close : str) (s : str) : option (str * nat) :=
  if startsWith s kw then
    match Lint.until RBRACE (skipn (length kw) s) with
    | Some (x :: body, _) =>
        Some (open ++ (x :: body) ++ close, length kw + length (x :: body) + 1)
    | _ => None
    end
  else None.

(** [/\\item(?:\[.*?\])?\s*/] *)
Definition m_item (s : str) : option (str * nat) :=
  let kw := lit "\item" in
  if startsWith s kw then
    match opt_group (fun r => Some (tt, length (takeWhile is_space r)))
                    (skipn (length kw) s) with
    | Some (_, n) => Some (lit "<li>", length kw + n)
    | None => None
    end
  else None.

(** The lookahead [(?=<li>|<\/ul>|<\/ol>|$)]. *)
Definition li_stop (r : str) : bool :=
  startsWith r (lit "<li>") || startsWith r (lit "</ul>")
  || startsWith r (lit "</ol>") || Js.eqb r [].

(** [[^<]*?] in front of the lookahead. *)
Fixpoint li_body (r : str) : option nat :=
  if li_stop r then Some 0
  else match r with
       | [] => None
       | c :: r' => if (c =? LT)%N then None else option_map S (li_body r')
       end.

(** [/<li>([^<]*?)(?=<li>|<\/ul>|<\/ol>|$)/] *)
Definition m_li (s : str) : option (str * nat) :=
  let kw := lit "<li>" in
  if startsWith s kw then
    let r := skipn (length kw) s in
    match li_body r with
    | Some k => Some (kw ++ firstn k r ++ lit "</li>", length kw + k)
    | None => None
    end
  else None.

(** [[\s\S]*?] in front of the literal [close]. *)
Definition body_until (close : str) (r : str) : option ((str) * nat) :=
  match indexOf r close with
  | Some k => Some (firstn k r, k + length close)
  | None => None
  end.

(** [/\\begin\{lstlisting\}(?:\[.*?\])?([\s\S]*?)\\end\{lstlisting\}/] *)
Definition m_lstlisting (s : str) : option (str * nat) :=
  let kw := lit "\begin{lstlisting}" in
  if startsWith s kw then
    match opt_group (body_until (lit "\end{lstlisting}")) (skipn (length kw) s) with
    | Some (code, n) =>
        Some (lit "<pre><code>" ++ code ++ lit "</code></pre>", length kw + n)
    | None => None
    end
  else None.

(** [/\\KW\s*/], dropped. *)
Definition m_kw_space (kw : str) (s : str) : option (str * nat) :=
  if startsWith s kw
  then Some ([], length kw + length (takeWhile is_space (skipn (length kw) s)))
  else None.

(** [/\\begin\{tikzpicture\}[\s\S]*?\\end\{tikzpicture\}/] *)
Definition m_tikz (s : str) : option (str * nat) :=
  let kw := lit "\begin{tikzpicture}" in
  if startsWith s kw then
    match body_until (lit "\end{tikzpicture}") (skipn (length kw) s) with
    | Some (_, n) =>
        Some (lit "<p><em>[Diagram - see PDF version]</em></p>", length kw + n)
    | None => None
    end
  else None.

(** [/\\[a-zA-Z]+\{[^}]*\}/] *)
Definition m_command_arg (s : str) : option (str * nat) :=
  match s with
  | c :: r =>
      if (c =? BACKSLASH)%N then
        match takeWhile is_letter r with
        | [] => None
        | name =>
            match skipn (length name) r with
            | b :: r1 =>
                if (b =? LBRACE)%N then
                  match Lint.until RBRACE r1 with
                  | Some (arg, _) => Some ([], 1 + length name + 1 + length arg + 1)
                  | None => None
                  end
                else None
            | [] => None
            end
        end
      else None
  | [] => None
  end.

(** The index behind the last newline of [ws], if it has one. *)
Fixpoint last_newline (ws : str) : option nat :=
  match ws with
  | [] => None
  | c :: ws' =>
      match last_newline ws' with
      | Some n => Some (S n)
      | None => if (c =? NL)%N then Some 1%nat else None
      end
  end.

(** [/\n\s*\n/]: the greedy [\s*] runs over the following white space and
    gives back as little as lets the final newline match. *)
Definition m_blank (s : str) : option (str * nat) :=
  match s with
  | c :: r =>
      if (c =? NL)%N then
        match last_newline (takeWhile is_space r) with
        | Some n => Some ([NL], 1 + n)
        | None => None
        end
      else None
  | [] => None
  end.

Definition latexToHtml (latex : str) : str :=
  let html := latex in
  let html := replace_all (m_lit (lit "[fragile]") []) html in
  let html := replace_all (m_lit (lit "\begin{itemize}") (lit "<ul>")) html in
  let html := replace_all (m_lit (lit "\end{itemize}") (lit "</ul>")) html in
  let html := replace_all (m_lit (lit "\begin{enumerate}") (lit "<ol>")) html in
  let html := replace_all (m_lit (lit "\end{enumerate}") (lit "</ol>")) html in
  let html := replace_all m_item html in
  let html := replace_all m_li html in
  let html := replace_all (m_wrap (lit "\textbf{") (lit "<strong>") (lit "</strong>")) html in
  let html := replace_all (m_wrap (lit "\textit{") (lit "<em>") (lit "</em>")) html in
  let html := replace_all (m_wrap (lit "\texttt{") (lit "<code>") (lit "</code>")) html in
  let html := replace_all (m_wrap (lit "\emph{") (lit "<em>") (lit "</em>")) html in
  let html := replace_all m_lstlisting html in
  let html := replace_all (m_lit (lit "\centering") []) html in
  let html := replace_all (m_kw_space (lit "\Huge")) html in
  let html := replace_all (m_kw_space (lit "\Large")) html in
  let html := replace_all m_tikz html in
  let html := replace_all m_command_arg html in
  let html := replace_all Lint.m_command html in
  let html := replace_all m_blank html in
  trim html.

(** [/^[\s\n]*\\note\{([\s\S]*?)\}/] on the text behind a frame. *)
Definition noteMatch (rest : str) : option str :=
  let r := dropWhile is_space rest in
  let kw := lit "\note{" in
  if startsWith r kw then
    match Lint.until RBRACE (skipn (length kw) r) with
    | Some (note, _) => Some note
    | None => None
    end
  else None.

Definition frame_slide (m : str * str * str) : Slide :=
  let '(title, frameContent, rest) := m in
  let html := latexToHtml frameContent in
  let notes :=
    match noteMatch rest with
    | Some n =>
        Some (replace_all (m_wrap (lit "\textbf{") (lit "<strong>") (lit "</strong>")) n)
    | None => None
    end in
  mkSlide title html notes.

(** The successive matches of [frameRegex.exec(content)]. *)
Definition frames (content : str) : list (str * str * str) :=
  Lint.matchAll frame_at content.

(** [/\\title\{([^}]+)\}/] and its like, first match. *)
Definition m_group (kw : str) (s : str) : option str :=
  if startsWith s kw then
    match Lint.until RBRACE (skipn (length kw) s) with
    | Some (x :: body, _) => Some (x :: body)
    | _ => None
    end
  else None.

Record Meta := mkMeta {
  meta_title : option str;
  meta_author : option str
}.

Definition parseLatex (content : str) : Meta * list Slide :=
  (mkMeta (search (m_group (lit "\title{")) content)
          (search (m_group (lit "\author{")) content),
   map frame_slide (frames content)).

(** The section generated for one slide. *)
Definition slide_section (slide : Slide) : str :=
  let notesHtml :=
    match notes slide with
    | Some (x :: n) =>
        lit "<aside class=" ++ [QUOTE] ++ lit "notes" ++ [QUOTE] ++ lit ">"
            ++ (x :: n) ++ lit "</aside>"
    | _ => []
    end in
  [NL] ++ lit "        <section>" ++ [NL]
       ++ lit "          <h2>" ++ title slide ++ lit "</h2>" ++ [NL]
       ++ lit "          " ++ content slide ++ [NL]
       ++ lit "          " ++ notesHtml ++ [NL]
       ++ lit "        </section>".

Definition slidesHtml (slides : list Slide) : str :=
  join [NL] (map slide_section slides).

(** [x || d] on a possibly missing string. *)
Definition or_default (x : option str) (d : str) : str :=
  match x with
  | Some (c :: r) => c :: r
  | _ => d
  end.

Definition line_of (s : str) : str := s ++ [NL].

(** An attribute [name="value"]. *)
Definition attr (name value : str) : str :=
  name ++ lit "=" ++ [QUOTE] ++ value ++ [QUOTE].

Definition generateRevealHtml (meta : Meta) (slides : list Slide) (theme : str) : str :=
  let title := or_default (meta_title meta) (lit "Presentation") in
  let author := or_default (meta_author meta) [] in
  let cdn := lit "https://cdn.jsdelivr.net/npm/reveal.js@4/" in
  line_of (lit "<!DOCTYPE html>")
  ++ line_of (lit "<html>")
  ++ line_of (lit "<head>")
  ++ line_of (lit "  <meta " ++ attr (lit "charset") (lit "utf-8") ++ lit ">")
  ++ line_of (lit "  <meta " ++ attr (lit "name") (lit "viewport") ++ lit " "
                  ++ attr (lit "content") (lit "width=device-width, initial-scale=1.0")
                  ++ lit ">")
  ++ line_of (lit "  <title>" ++ title ++ lit "</title>")
  ++ line_of (lit "  <link " ++ attr (lit "rel") (lit "stylesheet") ++ lit " "
                  ++ attr (lit "href") (cdn ++ lit "dist/reveal.css") ++ lit ">")
  ++ line_of (lit "  <link " ++ attr (lit "rel") (lit "stylesheet") ++ lit " "
                  ++ attr (lit "href") (cdn ++ lit "dist/theme/" ++ theme ++ lit ".css")
                  ++ lit ">")
  ++ line_of (lit "  <style>")
  ++ line_of (lit "    .reveal pre { font-size: 0.7em; }")
  ++ line_of (lit "    .reveal code { background: rgba(0,0,0,0.1); padding: 0.2em 0.4em; border-radius: 4px; }")
  ++ line_of (lit "    .reveal pre code { background: none; padding: 0; }")
  ++ line_of (lit "  </style>")
  ++ line_of (lit "</head>")
  ++ line_of (lit "<body>")
  ++ line_of (lit "  <div " ++ attr (lit "class") (lit "reveal") ++ lit ">")
  ++ line_of (lit "    <div " ++ attr (lit "class") (lit "slides") ++ lit ">")
  ++ line_of (lit "      <!-- Title slide -->")
  ++ line_of (lit "      <section>")
  ++ line_of (lit "        <h1>" ++ title ++ lit "</h1>")
  ++ line_of (lit "        " ++ match author with
                                | [] => []
                                | _ => lit "<p>" ++ author ++ lit "</p>"
                                end)
  ++ line_of (lit "      </section>")
  ++ line_of (slidesHtml slides)
  ++ line_of (lit "      <!-- End slide -->")
  ++ line_of (lit "      <section>")
  ++ line_of (lit "        <h1>Questions?</h1>")
  ++ line_of (lit "      </section>")
  ++ line_of (lit "    </div>")
  ++ line_of (lit "  </div>")
  ++ line_of (lit "  <script " ++ attr (lit "src") (cdn ++ lit "dist/reveal.js")
                  ++ lit "></script>")
  ++ line_of (lit "  <script " ++ attr (lit "src") (cdn ++ lit "plugin/notes/notes.js")
                  ++ lit "></script>")
  ++ line_of (lit "  <script>")
  ++ line_of (lit "    Reveal.initialize({")
  ++ line_of (lit "      hash: true,")
  ++ line_of (lit "      plugins: [RevealNotes]")
  ++ line_of (lit "    });")
  ++ line_of (lit "  </script>")
  ++ line_of (lit "</body>")
  ++ lit "</html>".

End ExportHtml.

Import Lint FromMd.

(* ================================================================== *)
(** ** src/commands/watch.ts: from slide content to the document *)
(* ================================================================== *)

Module MdLatex.

Import FromMd.

Definition PIPE : N := 124.
Definition DASH : N := 45.
Definition STAR : N := 42.
Definition DOT : N := 46.

(** [s.split(sep)] for a separator of one code unit. *)
Fixpoint split_on (sep : N) (s : str) : list str :=
  match s with
  | [] => [[]]
  | c :: s' =>
      if (c =? sep)%N then [] :: split_on sep s'
      else match split_on sep s' with
           | l :: ls => (c :: l) :: ls
           | [] => [[c]]
           end
  end.

(** [array.slice(1, -1)] *)
Definition slice_inner {A : Type} (l : list A) : list A := removelast (tl l).

(** *** renderTable *)

Definition cell_latex (c : str) : str := formatInlineMarkdown (escapeLatex c).

Definition row_latex (row : list str) : str :=
  join (lit " & ") (map cell_latex row) ++ lit " \\".

Definition header_latex (row : list str) : str :=
  join (lit " & ") (map (fun c => lit "\textbf{" ++ cell_latex c ++ lit "}") row)
  ++ lit " \\".

(** The array [lines] of [renderTable], for rows [row0 :: data]. *)
Definition table_lines (row0 : list str) (data : list (list str)) : list str :=
  [lit "\begin{center}";
   lit "\begin{tabular}{" ++ repeat (N_of_ascii "l") (length row0) ++ lit "}";
   lit "\toprule";
   header_latex row0;
   lit "\midrule"]
  ++ map row_latex data
  ++ [lit "\bottomrule"; lit "\end{tabular}"; lit "\end{center}"].

Definition renderTable (rows : list (list str)) : str :=
  match rows with
  | [] => []
  | row0 :: data => join [NL] (table_lines row0 data)
  end.

(** *** mdToLatex *)

Inductive ListKind := itemize | enumerate.

Definition ListKind_eqb (a b : ListKind) : bool :=
  match a, b with
  | itemize, itemize | enumerate, enumerate => true
  | _, _ => false
  end.

Definition kind_name (k : ListKind) : str :=
  match k with
  | itemize => lit "itemize"
  | enumerate => lit "enumerate"
  end.

Definition begin_list (k : ListKind) : str := lit "\begin{" ++ kind_name k ++ lit "}".
Definition end_list (k : ListKind) : str := lit "\end{" ++ kind_name k ++ lit "}".

Record MdState := mkMd {
  result : list str;
  inList : option ListKind;
  inCodeBlock : bool;
  codeLanguage : str;
  codeLines : list str;
  inTable : bool;
  tableRows : list (list str)
}.

(** [line.includes('|') && line.trim().startsWith('|')] *)
Definition is_table_line (line : str) : bool :=
  includes line [PIPE] && startsWith (trim line) [PIPE].

(** [/^\|[\s\-:]+\|/] *)
Definition is_separator (line : str) : bool :=
  match line with
  | c :: r =>
      if (c =? PIPE)%N then
        match takeWhile (fun u => is_space u || (u =? DASH)%N || (u =? COLON)%N) r with
        | [] => false
        | run =>
            match skipn (length run) r with
            | d :: _ => (d =? PIPE)%N
            | [] => false
            end
        end
      else false
  | [] => false
  end.

(** [line.split('|').slice(1, -1).map(c => c.trim())] *)
Definition cells (line : str) : list str :=
  map trim (slice_inner (split_on PIPE line)).

(** [/^[\s]*[-*]\s/] at the start of the line: what is left of the line
    behind the match. *)
Definition bullet_rest (line : str) : option str :=
  match dropWhile is_space line with
  | c :: w :: rest =>
      if ((c =? DASH)%N || (c =? STAR)%N) && is_space w then Some rest else None
  | _ => None
  end.

(** [/^[\s]*\d+\.\s/] at the start of the line: what is left of the line
    behind the match. *)
Definition numbered_rest (line : str) : option str :=
  let r := dropWhile is_space line in
  match takeWhile is_digit r with
  | [] => None
  | digits =>
      match skipn (length digits) r with
      | d :: w :: rest =>
          if (d =? DOT)%N && is_space w then Some rest else None
      | _ => None
      end
  end.

(** Closing the open list, if there is one. *)
Definition close_list (res : list str) (l : option ListKind) : list str :=
  match l with
  | Some k => res ++ [end_list k]
  | None => res
  end.

(** Opening a list of kind [k] unless one is open already, an open list
    of the other kind being closed first. *)
Definition open_list (res : list str) (l : option ListKind) (k : ListKind) : list str :=
  match l with
  | Some k' => if ListKind_eqb k' k then res else res ++ [end_list k'; begin_list k]
  | None => res ++ [begin_list k]
  end.

Definition item_latex (text : str) : str :=
  lit "  \item " ++ formatInlineMarkdown (escapeLatex (trim text)).

(** What a closing fence pushes for the code gathered so far. *)
Definition code_block (codeLanguage : str) (codeLines : list str) : list str :=
  match trim (join [NL] codeLines) with
  | [] => []
  | trimmedCode =>
      if Js.eqb codeLanguage (lit "mermaid")
      then [lit "\centering"; mermaidToTikz trimmedCode]
      else [lit "\begin{lstlisting}[language=" ++ codeLanguage ++ lit "]";
            trimmedCode;
            lit "\end{lstlisting}"]
  end.

(** The body of the loop over the lines.  The note the source prints
    about the mermaid command-line tool goes to the console only. *)
Definition md_line (st : MdState) (line : str) : MdState :=
  if is_table_line line then
    if is_separator line then st
    else
      let rows := if inTable st then tableRows st else [] in
      mkMd (result st) (inList st) (inCodeBlock st) (codeLanguage st) (codeLines st)
           true (rows ++ [cells line])
  else
    let res := if inTable st then result st ++ [renderTable (tableRows st)]
               else result st in
    let rows := if inTable st then [] else tableRows st in
    if startsWith line FENCE then
      if negb (inCodeBlock st) then
        let lang := match trim (slice_from line 3) with
                    | [] => lit "text"
                    | l => l
                    end in
        mkMd res (inList st) true lang [] false rows
      else
        mkMd (res ++ code_block (codeLanguage st) (codeLines st)) (inList st)
             false (codeLanguage st) (codeLines st) false rows
    else if inCodeBlock st then
      mkMd res (inList st) (inCodeBlock st) (codeLanguage st) (codeLines st ++ [line])
           false rows
    else if Js.eqb (trim line) [] then
      mkMd (close_list res (inList st) ++ [[]]) None (inCodeBlock st)
           (codeLanguage st) (codeLines st) false rows
    else
      match bullet_rest line with
      | Some text =>
          mkMd (open_list res (inList st) itemize ++ [item_latex text]) (Some itemize)
               (inCodeBlock st) (codeLanguage st) (codeLines st) false rows
      | None =>
          match numbered_rest line with
          | Some text =>
              mkMd (open_list res (inList st) enumerate ++ [item_latex text])
                   (Some enumerate)
                   (inCodeBlock st) (codeLanguage st) (codeLines st) false rows
          | None =>
              let res := close_list res (inList st) in
              if startsWith line (lit "#### ") then
                mkMd (res ++ [lit "\textbf{" ++ escapeLatex (trim (slice_from line 5))
                                             ++ lit "}"; []])
                     None (inCodeBlock st) (codeLanguage st) (codeLines st) false rows
              else if startsWith line (lit "### ") then
                mkMd (res ++ [lit "\textbf{\large "
                                  ++ escapeLatex (trim (slice_from line 4)) ++ lit "}"; []])
                     None (inCodeBlock st) (codeLanguage st) (codeLines st) false rows
              else
                mkMd (res ++ [formatInlineMarkdown (escapeLatex line)])
                     None (inCodeBlock st) (codeLanguage st) (codeLines st) false rows
          end
      end.

Definition md_init : MdState := mkMd [] None false [] [] false [].

(** What is pushed behind the loop: the end of an open list, then the
    table still being gathered. *)
Definition md_finish (st : MdState) : list str :=
  let res := close_list (result st) (inList st) in
  if inTable st && (0 <? length (tableRows st))%nat
  then res ++ [renderTable (tableRows st)]
  else res.

Definition mdToLatex (lines : list str) : str :=
  join [NL] (md_finish (fold_left md_line lines md_init)).

(** *** generateLatex *)

Record FromMdOptions := mkOptions {
  theme : str;
  color : str
}.

(** [meta[key] ?? d] *)
Definition meta_or (meta : Meta) (key d : str) : str :=
  match Map_get meta key with
  | Some v => v
  | None => d
  end.

(** [n.trim()] read as a condition. *)
Definition nonblank (n : str) : bool := negb (Js.eqb (trim n) []).

Definition hasNotes (slides : list Slide) : bool :=
  existsb (fun s => (0 <? length (notes s))%nat && existsb nonblank (notes s)) slides.

Definition preamble (meta : Meta) (slides : list Slide) (options : FromMdOptions) : str :=
  lit "\documentclass[aspectratio=169]{beamer}" ++ [NL]
  ++ lit "\usetheme{" ++ meta_or meta (lit "theme") (theme options) ++ lit "}" ++ [NL]
  ++ lit "\usecolortheme{" ++ meta_or meta (lit "colorTheme") (color options)
  ++ lit "}" ++ [NL]
  ++ (if hasNotes slides
      then lit "\setbeameroption{show notes on second screen=right}" else [])
  ++ [NL] ++ [NL]
  ++ lit "\usepackage{listings}" ++ [NL]
  ++ lit "\usepackage{tikz}" ++ [NL]
  ++ lit "\usepackage{booktabs}" ++ [NL]
  ++ lit "\usetikzlibrary{shapes,arrows,positioning}" ++ [NL]
  ++ [NL]
  ++ lit "\lstset{" ++ [NL]
  ++ lit "  basicstyle=\ttfamily\small," ++ [NL]
  ++ lit "  breaklines=true," ++ [NL]
  ++ lit "  frame=single," ++ [NL]
  ++ lit "  backgroundcolor=\color{gray!10}" ++ [NL]
  ++ lit "}" ++ [NL]
  ++ [NL]
  ++ lit "\title{" ++ escapeLatex (meta_or meta (lit "title") (lit "Presentation"))
  ++ lit "}" ++ [NL]
  ++ lit "\author{" ++ escapeLatex (meta_or meta (lit "author") []) ++ lit "}" ++ [NL]
  ++ lit "\date{" ++ meta_or meta (lit "date") (lit "\today") ++ lit "}" ++ [NL]
  ++ [NL]
  ++ lit "\begin{document}" ++ [NL]
  ++ [NL]
  ++ lit "\begin{frame}" ++ [NL]
  ++ lit "  \titlepage" ++ [NL]
  ++ lit "\end{frame}" ++ [NL]
  ++ [NL].

(** The note command behind a frame, when the slide has notes that are
    not all blank. *)
Definition note_latex (slide : Slide) : str :=
  if (0 <? length (notes slide))%nat then
    let notesContent := join [NL] (map escapeLatex (filter nonblank (notes slide))) in
    if nonblank notesContent
    then lit "\note{" ++ notesContent ++ lit "}" ++ [NL]
    else []
  else [].

(** What the loop over the slides appends for one slide. *)
Definition slide_latex (slide : Slide) : str :=
  let content := mdToLatex (content slide) in
  let hasCode := includes content (lit "\begin{lstlisting}") in
  let frameOpt := if hasCode then lit "[fragile]" else [] in
  lit "\begin{frame}" ++ frameOpt ++ lit "{" ++ escapeLatex (title slide) ++ lit "}" ++ [NL]
  ++ content
  ++ [NL] ++ lit "\end{frame}" ++ [NL]
  ++ note_latex slide
  ++ [NL].

Definition closing : str :=
  lit "\begin{frame}" ++ [NL]
  ++ lit "  \centering" ++ [NL]
  ++ lit "  \Huge Questions?" ++ [NL]
  ++ lit "\end{frame}" ++ [NL]
  ++ [NL]
  ++ lit "\end{document}" ++ [NL].

Definition generateLatex (meta : Meta) (slides : list Slide) (options : FromMdOptions)
  : str :=
  preamble meta slides options ++ concat (map slide_latex slides) ++ closing.

(** [fromMd], from the text read to the text written. *)
Definition fromMd (md : str) (options : FromMdOptions) : str :=
  let '(meta, slides) := parseMarkdown md in
  generateLatex meta slides options.

End MdLatex.

(* ================================================================== *)
(** ** Brace structure of a text, stated apart from the linter *)
(* ================================================================== *)

Module BraceSpec.

Inductive brace := Open | Close.

Definition brace_unit (b : brace) : N :=
  match b with
  | Open => LBRACE
  | Close => RBRACE
  end.

(** The braces of a line outside its comment, each with the index of the
    line. *)
Definition line_braces (idx : nat) (l : str) : list (nat * brace) :=
  flat_map (fun c => if (c =? LBRACE)%N then [(idx, Open)]
                     else if (c =? RBRACE)%N then [(idx, Close)]
                     else [])
           (activePart l).

Fixpoint braces_from (idx : nat) (lines : list str) : list (nat * brace) :=
  match lines with
  | [] => []
  | l :: ls => line_braces idx l ++ braces_from (S idx) ls
  end.

Definition braces (lines : list str) : list (nat * brace) := braces_from 0 lines.

(** Properly nested braces. *)
Inductive balanced : list (nat * brace) -> Prop :=
| bal_nil : balanced []
| bal_pair i j u v :
    balanced u -> balanced v -> balanced ((i, Open) :: u ++ (j, Close) :: v).

(** Nested groups between [n] opening braces that nothing closes. *)
Inductive unclosed_tail : list (nat * brace) -> nat -> Prop :=
| ut_done b : balanced b -> unclosed_tail b 0
| ut_open b i w n :
    balanced b -> unclosed_tail w n -> unclosed_tail (b ++ (i, Open) :: w) (S n).

(** [unmatched w closes n]: the brace sequence [w] leaves the closing
    braces on the lines [closes] without an opening brace, and [n]
    opening braces without a closing one. *)
Inductive unmatched : list (nat * brace) -> list nat -> nat -> Prop :=
| um_tail w n : unclosed_tail w n -> unmatched w [] n
| um_close b i w closes n :
    balanced b -> unmatched w closes n ->
    unmatched (b ++ (i, Close) :: w) (i :: closes) n.

(** The linter's counter, run over a brace sequence. *)
Definition brace_event (st : Z * list LintIssue) (e : nat * brace)
  : Z * list LintIssue :=
  brace_char (fst e) st (brace_unit (snd e)).

(** A count as the report prints it, in decimal. *)
Definition decimal (n : nat) : str :=
  lit (NilEmpty.string_of_int (Z.to_int (Z.of_nat n))).

(** Line indices that never go down. *)
Definition ascending (w : list (nat * brace)) : Prop :=
  StronglySorted le (map fst w).

End BraceSpec.

(* ================================================================== *)
(** ** Level-2 headings of a Markdown document, stated apart from the parser *)
(* ================================================================== *)

Module SlideSpec.

(** What follows the line that closes the frontmatter. *)
Fixpoint after_frontmatter (lines : list str) : list str :=
  match lines with
  | [] => []
  | l :: r => if Js.eqb l SLIDE_BREAK then r else after_frontmatter r
  end.

(** The Markdown proper: the lines behind the frontmatter block, which a
    first line [---] opens. *)
Definition body (lines : list str) : list str :=
  match lines with
  | [] => []
  | l0 :: r => if Js.eqb l0 SLIDE_BREAK then after_frontmatter r else lines
  end.

(** The number of level-2 headings outside code fences; a line that
    starts with three backticks opens or closes a fence. *)
Fixpoint headings (inFence : bool) (lines : list str) : nat :=
  match lines with
  | [] => 0
  | l :: r =>
      let inFence := if startsWith l FENCE then negb inFence else inFence in
      (if negb inFence && startsWith l (lit "## ") then 1 else 0)
      + headings inFence r
  end.

(** Slides closed so far, and the one that is open. *)
Definition slide_count (st : PState) : nat :=
  length (slides st) + match currentSlide st with Some _ => 1 | None => 0 end.

End SlideSpec.

(* ================================================================== *)
(** ** Text the escaping has nothing to do on *)
(* ================================================================== *)

Module EscapeSpec.



Definition STAR : N := 42.


End EscapeSpec.

(* ================================================================== *)
(** ** The shape of a frame the exporter can extract *)
(* ================================================================== *)

Module FrameSpec.

Definition no_line_terminator (o : str) : Prop :=
  forallb (fun c => negb (is_line_terminator c)) o = true.

(** The bracketed option in front of a title: absent, or one bracket
    group on a single line. *)
Definition bracket_option (opt : str) : Prop :=
  opt = []
  \/ exists o, opt = ExportHtml.LBRACKET :: o ++ [ExportHtml.RBRACKET]
               /\ no_line_terminator o.

End FrameSpec.

(* ================================================================== *)
(** ** Sample inputs *)
(* ================================================================== *)

Module Samples.

Definition bare_frame_deck : list str :=
  [lit "\begin{frame}"; lit "Hello"; lit "\end{frame}"].

(** Two closing braces nothing opens (lines 1 and 3) and one opening
    brace nothing closes; the brace behind [%] is a comment. *)
Definition stray_braces : list str :=
  [lit "a}b{"; lit "{x}% }"; lit "}}"; lit "{"].

(** A deck whose only finding is a warning. *)
Definition underscore_deck : str :=
  lit "\documentclass{beamer}" ++ [NL] ++ lit "\begin{document}" ++ [NL]
      ++ lit "a_b" ++ [NL] ++ lit "\end{document}".

(** The scenario of the notes claim. *)
Definition notes_doc : str :=
  lit "## Intro" ++ [NL] ++ lit "Hello" ++ [NL] ++ lit "Notes: remember X".

(** The example of the README's section on speaker notes. *)
Definition readme_notes_doc : str :=
  lit "## My Slide" ++ [NL] ++ [NL] ++ lit "Key points for the audience" ++ [NL]
      ++ [NL] ++ lit "Note: This is a speaker note!" ++ [NL]
      ++ lit "- Remind them about X".

(** A slide whose code block holds a line that starts with [Note:]. *)
Definition fenced_note_doc : str :=
  lit "## A" ++ [NL] ++ lit "```" ++ [NL] ++ lit "Note: x" ++ [NL]
      ++ lit "code" ++ [NL] ++ lit "```".

(** A slide whose code block holds a heading line and a break line. *)
Definition fenced_markers_doc : str :=
  lit "## A" ++ [NL] ++ lit "```" ++ [NL] ++ lit "## x" ++ [NL]
      ++ lit "---" ++ [NL] ++ lit "```".

(** Plain text between a slide break and the next heading. *)
Definition break_doc : str :=
  lit "## A" ++ [NL] ++ lit "x" ++ [NL] ++ lit "---" ++ [NL] ++ lit "y" ++ [NL]
      ++ lit "## B" ++ [NL] ++ lit "z".

(** A left-to-right graph whose only edge names its target's label. *)
Definition labelled_target_graph : str :=
  lit "graph LR" ++ [NL] ++ lit "A --> B[Two]".


(** A first line [---] that nothing closes, with a level-2 heading
    behind it. *)
Definition open_frontmatter_doc : str :=
  lit "---" ++ [NL] ++ lit "## A" ++ [NL] ++ lit "x".

(** A heading inside the frontmatter block and one behind it. *)
Definition frontmatter_heading_doc : str :=
  lit "---" ++ [NL] ++ lit "## A" ++ [NL] ++ lit "hello" ++ [NL] ++ lit "---" ++ [NL]
      ++ lit "## B" ++ [NL] ++ lit "world".




(** The two frames [generateLatex] writes around the slides. *)
Definition titlepage_frame : str :=
  lit "\begin{frame}" ++ [NL] ++ lit "  \titlepage" ++ [NL] ++ lit "\end{frame}" ++ [NL].

Definition questions_frame : str :=
  lit "\begin{frame}" ++ [NL] ++ lit "  \centering" ++ [NL]
      ++ lit "  \Huge Questions?" ++ [NL] ++ lit "\end{frame}" ++ [NL].

(** The document [generateLatex] writes for the title [Demo], the author
    [Ann], the default themes and one slide [Intro] with the line
    [Hello]. *)
Definition generated_deck : str :=
  lit "\documentclass[aspectratio=169]{beamer}" ++ [NL]
  ++ lit "\usetheme{default}" ++ [NL]
  ++ lit "\usecolortheme{default}" ++ [NL]
  ++ [NL] ++ [NL]
  ++ lit "\usepackage{listings}" ++ [NL]
  ++ lit "\usepackage{tikz}" ++ [NL]
  ++ lit "\usepackage{booktabs}" ++ [NL]
  ++ lit "\usetikzlibrary{shapes,arrows,positioning}" ++ [NL]
  ++ [NL]
  ++ lit "\lstset{" ++ [NL]
  ++ lit "  basicstyle=\ttfamily\small," ++ [NL]
  ++ lit "  breaklines=true," ++ [NL]
  ++ lit "  frame=single," ++ [NL]
  ++ lit "  backgroundcolor=\color{gray!10}" ++ [NL]
  ++ lit "}" ++ [NL]
  ++ [NL]
  ++ lit "\title{Demo}" ++ [NL]
  ++ lit "\author{Ann}" ++ [NL]
  ++ lit "\date{\today}" ++ [NL]
  ++ [NL]
  ++ lit "\begin{document}" ++ [NL]
  ++ [NL]
  ++ titlepage_frame
  ++ [NL]
  ++ lit "\begin{frame}{Intro}" ++ [NL]
  ++ lit "Hello" ++ [NL]
  ++ lit "\end{frame}" ++ [NL]
  ++ [NL]
  ++ questions_frame
  ++ [NL]
  ++ lit "\end{document}" ++ [NL].

End Samples.

(* ================================================================== *)
(** ** Vocabulary of the further properties *)
(* ================================================================== *)

Module ReportSpec.

(** Issues in the order of their lines. *)
Definition by_line (a b : LintIssue) : Prop := (line a <= line b)%Z.

(** An issue anchored at one of the [n] lines of the text. *)
Definition on_a_line (n : nat) (i : LintIssue) : Prop :=
  (1 <= line i <= Z.of_nat n)%Z.

(** A slide built from the lines [lines]: its title is the trimmed text
    of a level-2 heading among them, and each of its content and notes
    lines is one of them that does not start with a notes marker. *)
Definition slide_from (lines : list str) (s : Slide) : Prop :=
  (exists h, In h lines /\ startsWith h (lit "## ") = true
             /\ title s = trim (slice_from h 3))
  /\ (forall l, In l (content s) \/ In l (notes s) ->
        In l lines
        /\ startsWith l (lit "Note:") = false
        /\ startsWith l (lit "Notes:") = false).

Definition state_from (lines : list str) (st : PState) : Prop :=
  Forall (slide_from lines) (slides st)
  /\ (forall s, currentSlide st = Some s -> slide_from lines s).

Definition TILDE : N := 126.
Definition CARET : N := 94.

(** A small Markdown document with frontmatter and one slide. *)
Definition demo_md : str :=
  lit "---" ++ [NL] ++ lit "title: Demo" ++ [NL] ++ lit "author: Ann" ++ [NL]
  ++ lit "---" ++ [NL] ++ lit "## Intro" ++ [NL] ++ lit "Hello".

End ReportSpec.

Import Samples.

(* ================================================================== *)
(** ** Facts about the string primitives *)
(* ================================================================== *)

Section StringFacts.

Lemma startsWith_iff (p s : str) :
  startsWith s p = true <-> exists t, s = p ++ t.
Proof.
  revert s; induction p as [|a p IH]; intros s; simpl.
  - split; [intros _; now exists s | reflexivity].
  - destruct s as [|b s]; simpl.
    + split; [discriminate | intros [t Ht]; discriminate].
    + rewrite andb_true_iff, N.eqb_eq, IH. split.
      * intros [-> [t ->]]. now exists t.
      * intros [t Ht]. injection Ht as -> ->. split; [reflexivity | now exists t].
Qed.

Lemma includes_iff (s p : str) :
  includes s p = true <-> exists a t, s = a ++ p ++ t.
Proof.
  induction s as [|c s IH].
  - simpl. rewrite orb_false_r, startsWith_iff. split.
    + intros [t Ht]. now exists [], t.
    + intros [a [t Ht]]. destruct a; [now exists t | discriminate].
  - cbn [includes]. rewrite orb_true_iff, startsWith_iff, IH. split.
    + intros [[t Ht] | [a [t Ht]]].
      * now exists [], t.
      * exists (c :: a), t. now rewrite Ht.
    + intros [[|x a] [t Ht]].
      * left. now exists t.
      * right. injection Ht as -> ->. now exists a, t.
Qed.

Lemma includes_inner (s a b c : str) :
  includes s (a ++ b ++ c) = true -> includes s b = true.
Proof.
  rewrite !includes_iff. intros [x [t ->]].
  exists (x ++ a), (c ++ t). now rewrite <- !app_assoc.
Qed.

End StringFacts.

(* ================================================================== *)
(** ** The linter: frame titles (C3) *)
(* ================================================================== *)

Section FrameTitle.

(** A line that holds the begin-frame marker holds an opening brace, so
    the guard of the rule is never passed. *)
Lemma frame_line_silent (lines : list str) (issues : list LintIssue)
      (l : str) (idx : nat) :
  frame_line lines issues l idx = issues.
Proof.
  unfold frame_line.
  destruct (includes l (lit "\begin{frame}")) eqn:Hb; [|reflexivity].
  assert (Hc : includes l (lit "{") = true).
  { apply (includes_inner l (lit "\begin") (lit "{") (lit "frame}")). exact Hb. }
  rewrite Hc. reflexivity.
Qed.

(** The rule reports nothing, whatever the lines. *)
Lemma frameWithoutTitle_never_reports (lines : list str) :
  frameWithoutTitle lines = [].
Proof.
  unfold frameWithoutTitle, forEach.
  generalize 0%nat. generalize lines at 1.
  induction lines as [|l ls IH]; intros all i; simpl.
  - reflexivity.
  - rewrite frame_line_silent. apply IH.
Qed.

(** C3 (code defect).  The first line of [bare_frame_deck] is a bare
    begin-frame marker: no bracketed option, no title, none of the exempt
    frame kinds, and the next line holds neither [\frametitle] nor
    [\titlepage].  The claim asks for a "Frame without title" warning at
    line 1; the rule reports nothing. *)
Theorem C3_bare_frame_not_flagged :
  includes (lit "\begin{frame}") (lit "\begin{frame}") = true
  /\ includes (lit "\begin{frame}") (lit "[") = false
  /\ next_includes bare_frame_deck 0 (lit "\frametitle") = false
  /\ next_includes bare_frame_deck 0 (lit "\titlepage") = false
  /\ includes (lit "\begin{frame}") (lit "[fragile]") = false
  /\ includes (lit "\begin{frame}") (lit "[plain]") = false
  /\ includes (lit "\begin{frame}") (lit "[standout]") = false
  /\ frameWithoutTitle bare_frame_deck = []
  /\ ~ In (frame_title_issue 0) (frameWithoutTitle bare_frame_deck).
Proof.
  repeat split; try reflexivity.
  vm_compute. intros [].
Qed.

End FrameTitle.

(* ================================================================== *)
(** ** The linter: brace balance (C2) *)
(* ================================================================== *)

Section BraceBalance.

Import BraceSpec.

Lemma brace_char_other idx bc iss c :
  (0 <= bc)%Z -> c <> LBRACE -> c <> RBRACE ->
  brace_char idx (bc, iss) c = (bc, iss).
Proof.
  intros Hbc Ho Hc. unfold brace_char.
  apply N.eqb_neq in Ho, Hc. rewrite Ho, Hc.
  destruct (Z.ltb_spec bc 0); [lia | reflexivity].
Qed.

Lemma brace_char_open idx bc iss :
  (0 <= bc)%Z -> brace_char idx (bc, iss) LBRACE = ((bc + 1)%Z, iss).
Proof.
  intros Hbc. unfold brace_char. cbn.
  destruct (Z.ltb_spec (bc + 1) 0); [lia | reflexivity].
Qed.

Lemma brace_char_close idx bc iss :
  (0 < bc)%Z -> brace_char idx (bc, iss) RBRACE = ((bc - 1)%Z, iss).
Proof.
  intros Hbc. unfold brace_char. cbn.
  destruct (Z.ltb_spec (bc - 1) 0); [lia | reflexivity].
Qed.

Lemma brace_char_stray idx iss :
  brace_char idx (0%Z, iss) RBRACE = (0%Z, iss ++ [unmatched_closing idx]).
Proof. reflexivity. Qed.

Lemma brace_char_nonneg idx st c :
  (0 <= fst st)%Z -> (0 <= fst (brace_char idx st c))%Z.
Proof.
  destruct st as [bc iss]. unfold brace_char. cbn [fst].
  intros Hbc.
  destruct (c =? LBRACE)%N, (c =? RBRACE)%N;
    match goal with |- context [(?x <? 0)%Z] => destruct (Z.ltb_spec x 0) end;
    cbn; lia.
Qed.

(** Walking the code units of a line is walking its braces. *)
Lemma chars_as_events idx (s : str) st :
  (0 <= fst st)%Z ->
  fold_left (brace_char idx) s st
  = fold_left brace_event
      (flat_map (fun c => if (c =? LBRACE)%N then [(idx, Open)]
                          else if (c =? RBRACE)%N then [(idx, Close)]
                          else []) s) st.
Proof.
  revert st; induction s as [|c s IH]; intros st Hst; [reflexivity|].
  cbn [fold_left flat_map].
  destruct (N.eqb_spec c LBRACE) as [->|Ho].
  - cbn [app fold_left]. apply IH. now apply brace_char_nonneg.
  - destruct (N.eqb_spec c RBRACE) as [->|Hc].
    + cbn [app fold_left]. apply IH. now apply brace_char_nonneg.
    + cbn [app]. destruct st as [bc iss].
      rewrite brace_char_other by assumption. now apply IH.
Qed.

Lemma events_nonneg w st :
  (0 <= fst st)%Z -> (0 <= fst (fold_left brace_event w st))%Z.
Proof.
  revert st; induction w as [|e w IH]; intros st Hst; [assumption|].
  cbn [fold_left]. apply IH. now apply brace_char_nonneg.
Qed.

Lemma lines_as_events (lines : list str) idx st :
  (0 <= fst st)%Z ->
  forEach_from brace_line lines idx st
  = fold_left brace_event (braces_from idx lines) st.
Proof.
  revert idx st; induction lines as [|l ls IH]; intros idx st Hst; [reflexivity|].
  cbn [forEach_from braces_from]. rewrite fold_left_app.
  unfold brace_line at 2. rewrite chars_as_events by assumption.
  fold (line_braces idx l).
  apply IH. now apply events_nonneg.
Qed.

Lemma balanced_run b :
  balanced b -> forall bc iss, (0 <= bc)%Z ->
  fold_left brace_event b (bc, iss) = (bc, iss).
Proof.
  induction 1 as [|i j u v Hu IHu Hv IHv]; intros bc iss Hbc; [reflexivity|].
  cbn [fold_left]. unfold brace_event at 2. cbn [fst snd brace_unit].
  rewrite brace_char_open by assumption.
  rewrite fold_left_app, IHu by lia.
  cbn [fold_left]. unfold brace_event at 2. cbn [fst snd brace_unit].
  rewrite brace_char_close by lia.
  replace (bc + 1 - 1)%Z with bc by lia. now apply IHv.
Qed.

Lemma unclosed_tail_run w n :
  unclosed_tail w n -> forall bc iss, (0 <= bc)%Z ->
  fold_left brace_event w (bc, iss) = ((bc + Z.of_nat n)%Z, iss).
Proof.
  induction 1 as [b Hb|b i w n Hb Hw IH]; intros bc iss Hbc.
  - rewrite balanced_run by assumption. f_equal. lia.
  - rewrite fold_left_app, balanced_run by assumption.
    cbn [fold_left]. unfold brace_event at 2. cbn [fst snd brace_unit].
    rewrite brace_char_open by assumption.
    rewrite IH by lia. f_equal. lia.
Qed.

Lemma unmatched_run w closes n :
  unmatched w closes n -> forall iss,
  fold_left brace_event w (0%Z, iss)
  = (Z.of_nat n, iss ++ map unmatched_closing closes).
Proof.
  induction 1 as [w n Hw|b i w closes n Hb Hw IH]; intros iss.
  - rewrite (unclosed_tail_run w n Hw) by lia. cbn [map]. now rewrite app_nil_r.
  - rewrite fold_left_app, balanced_run by (assumption || lia).
    cbn [fold_left]. unfold brace_event at 2. cbn [fst snd brace_unit].
    rewrite brace_char_stray, IH. cbn [map]. now rewrite <- app_assoc.
Qed.

(** The line indices of a text's braces never go down. *)
Lemma line_braces_idx idx l :
  Forall (fun e => fst e = idx) (line_braces idx l).
Proof.
  unfold line_braces. induction (activePart l) as [|c s IH]; cbn [flat_map].
  - constructor.
  - apply Forall_app. split; [|assumption].
    destruct (c =? LBRACE)%N; [repeat constructor|].
    destruct (c =? RBRACE)%N; repeat constructor.
Qed.

Lemma braces_from_lower idx lines :
  Forall (fun e => idx <= fst e) (braces_from idx lines).
Proof.
  revert idx; induction lines as [|l ls IH]; intros idx; cbn [braces_from].
  - constructor.
  - apply Forall_app. split.
    + eapply Forall_impl; [|apply line_braces_idx]. cbn. intros e ->. lia.
    + eapply Forall_impl; [|apply (IH (S idx))]. cbn. intros e He. lia.
Qed.

Lemma ascending_app u v :
  ascending u -> ascending v ->
  (forall a b, In a u -> In b v -> fst a <= fst b) ->
  ascending (u ++ v).
Proof.
  unfold ascending. intros Hu Hv Huv.
  induction u as [|a u IH]; [assumption|].
  cbn [map app] in *. inversion Hu as [|? ? Hu' Ha]; subst.
  constructor.
  - apply IH; [assumption|]. intros x y Hx Hy. apply Huv; [now right | assumption].
  - rewrite map_app. apply Forall_app. split; [assumption|].
    apply Forall_forall. intros y Hy. apply in_map_iff in Hy as [b [<- Hb]].
    apply Huv; [now left | assumption].
Qed.

Lemma braces_from_ascending idx lines : ascending (braces_from idx lines).
Proof.
  revert idx; induction lines as [|l ls IH]; intros idx; cbn [braces_from].
  - constructor.
  - apply ascending_app.
    + unfold ascending. pose proof (line_braces_idx idx l) as H.
      induction H as [|e w He Hw IHw]; cbn [map]; constructor; [assumption|].
      apply Forall_forall. intros y Hy. apply in_map_iff in Hy as [b [<- Hb]].
      rewrite Forall_forall in Hw. rewrite He, (Hw b Hb). lia.
    + apply IH.
    + intros a b Ha Hb.
      pose proof (line_braces_idx idx l) as H1. rewrite Forall_forall in H1.
      pose proof (braces_from_lower (S idx) ls) as H2. rewrite Forall_forall in H2.
      rewrite (H1 a Ha). specialize (H2 b Hb). lia.
Qed.

Lemma ascending_tail u v : ascending (u ++ v) -> ascending v.
Proof.
  unfold ascending. induction u as [|a u IH]; [trivial|].
  cbn [map app]. intros H. inversion H; subst. now apply IH.
Qed.

Lemma unmatched_incl w closes n :
  unmatched w closes n -> incl closes (map fst w).
Proof.
  induction 1 as [w n Hw|b i w closes n Hb Hw IH].
  - intros x [].
  - intros x [<-|Hx]; rewrite map_app; apply in_or_app; right; cbn [map].
    + now left.
    + right. now apply IH.
Qed.

Lemma unmatched_ascending w closes n :
  unmatched w closes n -> ascending w -> StronglySorted le closes.
Proof.
  induction 1 as [w n Hw|b i w closes n Hb Hw IH]; intros Hs.
  - constructor.
  - apply ascending_tail in Hs. unfold ascending in Hs. cbn [map fst] in Hs.
    inversion Hs as [|? ? Hs' Hi]; subst.
    constructor; [now apply IH|].
    apply Forall_forall. intros x Hx.
    rewrite Forall_forall in Hi. apply Hi. now apply (unmatched_incl _ _ _ Hw).
Qed.

Lemma balanced_app u v : balanced u -> balanced v -> balanced (u ++ v).
Proof.
  induction 1 as [|i j a b Ha IHa Hb IHb]; intros Hv; [assumption|].
  cbn [app]. rewrite <- app_assoc. cbn [app]. constructor; [assumption|].
  now apply IHb.
Qed.

Lemma unclosed_tail_open w n i :
  unclosed_tail w n -> unclosed_tail (w ++ [(i, Open)]) (S n).
Proof.
  induction 1 as [b Hb|b j w n Hb Hw IH].
  - apply ut_open; [assumption | constructor; constructor].
  - rewrite <- app_assoc. cbn [app]. now apply ut_open.
Qed.

Lemma unclosed_tail_close w n i :
  unclosed_tail w (S n) -> unclosed_tail (w ++ [(i, Close)]) n.
Proof.
  remember (S n) as k eqn:Hk. intros H. revert n Hk.
  induction H as [b Hb|b j w k Hb Hw IH]; intros n Hk; [discriminate|].
  injection Hk as ->. rewrite <- app_assoc. cbn [app].
  inversion Hw as [b' Hb' E1 E2|b' j' w' n' Hb' Hw' E1 E2]; subst.
  - apply ut_done. apply balanced_app; [assumption|].
    apply (bal_pair j i w [] Hb' bal_nil).
  - apply ut_open; [assumption|]. now apply IH.
Qed.

Lemma unmatched_open w closes n i :
  unmatched w closes n -> unmatched (w ++ [(i, Open)]) closes (S n).
Proof.
  induction 1 as [w n Hw|b j w closes n Hb Hw IH].
  - apply um_tail. now apply unclosed_tail_open.
  - rewrite <- app_assoc. cbn [app]. now apply um_close.
Qed.

Lemma unmatched_close_some w closes n i :
  unmatched w closes (S n) -> unmatched (w ++ [(i, Close)]) closes n.
Proof.
  remember (S n) as k eqn:Hk. intros H. revert n Hk.
  induction H as [w k Hw|b j w closes k Hb Hw IH]; intros n ->.
  - apply um_tail. now apply unclosed_tail_close.
  - rewrite <- app_assoc. cbn [app]. apply um_close; [assumption|]. now apply IH.
Qed.

Lemma unmatched_close_none w closes i :
  unmatched w closes 0 -> unmatched (w ++ [(i, Close)]) (closes ++ [i]) 0.
Proof.
  remember 0%nat as k eqn:Hk. intros H. revert Hk.
  induction H as [w k Hw|b j w closes k Hb Hw IH]; intros ->.
  - inversion Hw as [b Hb E1 E2|]; subst. cbn [app].
    apply um_close; [assumption|]. apply um_tail. apply ut_done. constructor.
  - rewrite <- app_assoc. cbn [app]. apply um_close; [assumption|]. now apply IH.
Qed.

(** Every brace sequence has such a reading. *)
Lemma unmatched_total (w : list (nat * brace)) :
  exists closes n, unmatched w closes n.
Proof.
  induction w as [|[i b] w IH] using rev_ind.
  - exists [], 0%nat. apply um_tail, ut_done, bal_nil.
  - destruct IH as [closes [n H]]. destruct b.
    + exists closes, (S n). now apply unmatched_open.
    + destruct n as [|n].
      * exists (closes ++ [i]), 0%nat. now apply unmatched_close_none.
      * exists closes, n. now apply unmatched_close_some.
Qed.

Lemma unmatchedBraces_report (lines : list str) closes n :
  unmatched (braces lines) closes n ->
  unmatchedBraces lines
  = map unmatched_closing closes
    ++ (if (0 <? n)%nat then [unclosed (Z.of_nat n) (length lines)] else []).
Proof.
  intros H. unfold unmatchedBraces, forEach.
  rewrite lines_as_events by (cbn; lia).
  fold (braces lines). rewrite (unmatched_run _ _ _ H). cbn [app].
  destruct n as [|n].
  - cbn. now rewrite app_nil_r.
  - replace (Z.of_nat (S n) >? 0)%Z with true; [reflexivity|].
    symmetry. apply Z.gtb_lt. lia.
Qed.

(** C2.  Let the braces of a text (comments stripped) leave the closing
    braces on the lines [closes] unmatched (M of them) and N opening
    braces unclosed, however the matched groups lie between them.  Then
    the brace check reports one error "Unmatched closing brace }" of the
    rule brace-balance for each of the M closing braces, each at the
    line of its brace and in line order, followed, when N is positive,
    by exactly one error "N unclosed brace(s) {" of the same rule at the
    last line, and nothing else.  A closing brace met while the counter
    is zero appends its error at its line and leaves the counter at
    zero. *)
Theorem C2_brace_balance (lines : list str) (closes : list nat) (N : nat) :
  unmatched (braces lines) closes N ->
  unmatchedBraces lines
  = map (fun idx => mkIssue (Z.of_nat idx + 1) error
                            (lit "Unmatched closing brace }") (lit "brace-balance"))
        closes
    ++ (if (0 <? N)%nat
        then [mkIssue (Z.of_nat (length lines)) error
                      (decimal N ++ lit " unclosed brace(s) {") (lit "brace-balance")]
        else [])
  /\ StronglySorted le closes
  /\ (forall idx iss,
        brace_char idx (0%Z, iss) RBRACE
        = (0%Z, iss ++ [mkIssue (Z.of_nat idx + 1) error
                                (lit "Unmatched closing brace }")
                                (lit "brace-balance")])).
Proof.
  intros H. split; [|split].
  - rewrite (unmatchedBraces_report lines closes N H). reflexivity.
  - apply (unmatched_ascending _ _ _ H). apply braces_from_ascending.
  - intros idx iss. reflexivity.
Qed.

Lemma C2_brace_balance_witness :
  unmatchedBraces stray_braces
  = [mkIssue 1 error (lit "Unmatched closing brace }") (lit "brace-balance");
     mkIssue 3 error (lit "Unmatched closing brace }") (lit "brace-balance");
     mkIssue 4 error (lit "1 unclosed brace(s) {") (lit "brace-balance")]
  /\ StronglySorted le [0; 2]%nat.
Proof.
  assert (H : unmatched (braces stray_braces) [0; 2]%nat 1).
  { change (braces stray_braces)
      with ([] ++ (0%nat, Close)
               :: ((0%nat, Open) :: [(1%nat, Open); (1%nat, Close)]
                     ++ (2%nat, Close) :: [])
               ++ (2%nat, Close)
               :: [] ++ (3%nat, Open) :: []).
    apply um_close; [constructor|].
    apply um_close; [repeat constructor|].
    - apply (bal_pair 1 1 [] [] bal_nil bal_nil).
    - apply um_tail. apply ut_open; constructor; constructor. }
  destruct (@C2_brace_balance stray_braces [0; 2]%nat 1 H) as [H1 [H2 _]].
  split; [exact H1 | exact H2].
Defined.

End BraceBalance.

(* ================================================================== *)
(** ** The linter: exit contract (C8) *)
(* ================================================================== *)

Section ExitContract.

Lemma sort_insert_In x y l : In y (sort_insert x l) <-> y = x \/ In y l.
Proof.
  induction l as [|z l IH]; cbn [sort_insert].
  - cbn. intuition.
  - destruct (line x <=? line z)%Z; cbn [In]; [intuition|].
    rewrite IH. intuition.
Qed.

Lemma sort_by_line_In y l : In y (sort_by_line l) <-> In y l.
Proof.
  induction l as [|x l IH]; cbn [sort_by_line fold_right]; [reflexivity|].
  fold (sort_by_line l). rewrite sort_insert_In, IH. cbn. intuition.
Qed.

Lemma severity_cases (i : LintIssue) : severity i = error \/ severity i = warning.
Proof. destruct (severity i); auto. Qed.

(** C8.  Once the file is read, the command reaches [process.exit(1)]
    exactly when one of the issues the rules produced has severity
    [error]; otherwise it returns normally, in particular when every
    issue is a warning, however many there are. *)
Theorem C8_exit_contract (content : str) :
  (exit (lint content) = Some 1%Z
   <-> exists i, In i (collect content) /\ severity i = error)
  /\ (exit (lint content) = None
      <-> forall i, In i (collect content) -> severity i = warning)
  /\ (forall i, In i (issues (lint content)) <-> In i (collect content)).
Proof.
  assert (Hex : forall l : list LintIssue,
           (0 <? length (filter (fun i => Severity_eqb (severity i) error) l))%nat = true
           <-> exists i, In i l /\ severity i = error).
  { induction l as [|x l IH]; cbn [filter].
    - cbn. split; [discriminate | intros [i [[] _]]].
    - destruct (severity x) eqn:Hx; cbn [Severity_eqb].
      + cbn. split; [intros _; exists x; auto | reflexivity].
      + rewrite IH. split.
        * intros [i [Hi He]]. exists i. split; [now right | assumption].
        * intros [i [[<-|Hi] He]]; [congruence | now exists i]. }
  unfold lint. cbn [exit issues].
  set (errs := filter _ _).
  assert (Herr : (0 <? length errs)%nat = true
                 <-> exists i, In i (collect content) /\ severity i = error).
  { unfold errs. rewrite Hex. split; intros [i [Hi He]]; exists i;
      (split; [now apply sort_by_line_In | assumption]). }
  repeat split.
  - destruct (0 <? length errs)%nat; [intros _; now apply Herr | discriminate].
  - intros H. apply Herr in H. now rewrite H.
  - destruct (0 <? length errs)%nat eqn:E; [discriminate|]. intros _ i Hi.
    destruct (severity_cases i) as [He|Hw]; [|assumption].
    assert (false = true) by (apply Herr; now exists i).
    discriminate.
  - intros H. destruct (0 <? length errs)%nat eqn:E; [|reflexivity].
    destruct (proj1 Herr eq_refl) as [i [Hi He]].
    rewrite (H i Hi) in He. discriminate.
  - apply sort_by_line_In.
  - apply sort_by_line_In.
Qed.

Lemma C8_exit_contract_witness :
  exit (lint underscore_deck) = None
  /\ map severity (issues (lint underscore_deck)) = [warning].
Proof.
  split; [|vm_compute; reflexivity].
  apply (proj2 (proj1 (proj2 (C8_exit_contract underscore_deck)))).
  vm_compute. intros i [<-|[]]. reflexivity.
Defined.

End ExitContract.

(* ================================================================== *)
(** ** The Markdown parser (C4, C5, C6, C7) *)
(* ================================================================== *)

Section MarkdownParser.

Import SlideSpec.

Lemma eqb_eq (a b : str) : Js.eqb a b = true <-> a = b.
Proof.
  revert b; induction a as [|x a IH]; intros [|y b]; cbn; try (split; congruence).
  rewrite andb_true_iff, N.eqb_eq, IH. split.
  - intros [-> ->]. reflexivity.
  - intros H. injection H as -> ->. auto.
Qed.

(** C4 (code defect).  The line [Notes: remember X] turns notes mode on
    and is then dropped whole: its text reaches neither the notes nor the
    content of the slide.  The README's own example loses the sentence
    written behind [Note:] in the same way. *)
Theorem C4_notes_line_dropped :
  parseMarkdown notes_doc
  = ([], [mkSlide (lit "Intro") [lit "Hello"] []])
  /\ (forall s, In s (snd (parseMarkdown notes_doc)) ->
        ~ In (lit "remember X") (notes s) /\ ~ In (lit "remember X") (content s))
  /\ parseMarkdown readme_notes_doc
     = ([], [mkSlide (lit "My Slide")
                     [[]; lit "Key points for the audience"; []]
                     [lit "- Remind them about X"]]).
Proof.
  split; [reflexivity|]. split; [|reflexivity].
  intros s H. vm_compute in H. destruct H as [<-|[]].
  split; vm_compute.
  - intros [].
  - intros [H|[]]. discriminate.
Qed.

(** C6 (code defect).  Inside the code fence of [fenced_note_doc] the
    line [Note: x] still turns notes mode on and is dropped: the code line
    and the closing fence behind it land in the notes, not in the
    content.  The slide break and the heading rules beside it do ask
    whether a code block is open: in [fenced_markers_doc] a heading line
    and a break line inside the fence stay content. *)
Theorem C6_note_inside_fence :
  parseMarkdown fenced_note_doc
  = ([], [mkSlide (lit "A") [lit "```"] [lit "code"; lit "```"]])
  /\ parseMarkdown fenced_note_doc
     <> ([], [mkSlide (lit "A")
                      [lit "```"; lit "Note: x"; lit "code"; lit "```"] []])
  /\ parseMarkdown fenced_markers_doc
     = ([], [mkSlide (lit "A") [lit "```"; lit "## x"; lit "---"; lit "```"] []]).
Proof.
  split; [reflexivity | split; [vm_compute; discriminate | reflexivity]].
Qed.

(** C5, the claim as written, fails: in [break_doc] the line [y] stands
    between a slide break and the next heading, and no slide collects
    it; behind the break no slide is open. *)
Lemma C5_break_discards_counterexample :
  snd (parseMarkdown break_doc)
  = [mkSlide (lit "A") [lit "x"] []; mkSlide (lit "B") [lit "z"] []]
  /\ (forall s, In s (snd (parseMarkdown break_doc)) -> ~ In (lit "y") (content s))
  /\ currentSlide (parse_loop (firstn 3 (split_nl break_doc))) = None.
Proof.
  split; [reflexivity|]. split; [|reflexivity].
  intros s H. vm_compute in H. vm_compute.
  destruct H as [<-|[<-|[]]]; cbn; intros [H|[]]; discriminate.
Qed.

Lemma break_not_heading (l : str) :
  Js.eqb l SLIDE_BREAK = true -> startsWith l (lit "## ") = false.
Proof. intros H. apply eqb_eq in H. subst l. reflexivity. Qed.

Lemma note_not_heading (l : str) :
  startsWith l (lit "Note:") || startsWith l (lit "Notes:") = true ->
  startsWith l (lit "## ") = false.
Proof.
  intros H. apply orb_true_iff in H.
  destruct H as [H|H]; apply startsWith_iff in H; destruct H as [t ->];
    reflexivity.
Qed.

(** C5, amended.  Outside the frontmatter and outside code blocks a line
    [---] (not the first line) closes the open slide, if there is one,
    and leaves no slide open, with notes mode off.  While no slide is
    open, a line adds nothing to the slides: the state keeps no open
    slide, or the line is a level-2 heading and opens an empty slide of
    its own. *)
Theorem C5_break_closes_only :
  (forall st i,
      inFrontmatter st = false -> inCodeBlock st = false -> i <> 0%nat ->
      step st SLIDE_BREAK i
      = mkState (push_slide (slides st) (currentSlide st)) (meta st) None
                false false false)
  /\ (forall st l i,
        inFrontmatter st = false -> currentSlide st = None ->
        slides (step st l i) = slides st
        /\ (currentSlide (step st l i) = None
            \/ (startsWith l (lit "## ") = true
                /\ currentSlide (step st l i)
                   = Some (mkSlide (trim (slice_from l 3)) [] [])))).
Proof.
  split.
  - intros st i Hf Hc Hi. unfold step.
    destruct i as [|i]; [contradiction|]. cbn [Nat.eqb andb].
    rewrite Hf, Hc. reflexivity.
  - intros st l i Hf Hcur. unfold step. rewrite Hf, Hcur.
    destruct ((i =? 0)%nat && Js.eqb l SLIDE_BREAK); cbn [slides currentSlide].
    { split; [reflexivity | now left]. }
    destruct (negb _ && Js.eqb l SLIDE_BREAK); cbn [slides currentSlide push_slide].
    { split; [reflexivity | now left]. }
    destruct (startsWith l (lit "Note:") || startsWith l (lit "Notes:"));
      cbn [slides currentSlide].
    { split; [reflexivity | now left]. }
    destruct (startsWith l (lit "## ")) eqn:Hh.
    + destruct (negb _); cbn [andb slides currentSlide push_slide].
      * split; [reflexivity | right; now split].
      * split; [reflexivity | now left].
    + rewrite !andb_false_r. cbn [andb slides currentSlide].
      destruct (_ && _); cbn [slides currentSlide]; split; auto.
Qed.

Lemma C5_break_closes_only_witness :
  step (parse_loop (firstn 2 (split_nl break_doc))) SLIDE_BREAK 2
  = mkState [mkSlide (lit "A") [lit "x"] []] [] None false false false
  /\ slides (step (parse_loop (firstn 3 (split_nl break_doc))) (lit "y") 3)
     = [mkSlide (lit "A") [lit "x"] []].
Proof.
  split.
  - apply (proj1 C5_break_closes_only
             (parse_loop (firstn 2 (split_nl break_doc))) 2%nat);
      [reflexivity | reflexivity | discriminate].
  - apply (proj2 C5_break_closes_only
             (parse_loop (firstn 3 (split_nl break_doc))) (lit "y") 3%nat);
      reflexivity.
Defined.

Lemma push_slide_length sl cur :
  length (push_slide sl cur)
  = (length sl + match cur with Some _ => 1 | None => 0 end)%nat.
Proof.
  destruct cur; cbn [push_slide]; [rewrite length_app; reflexivity | lia].
Qed.

(** One line outside the frontmatter: the fence flag follows the line,
    and the slides closed or open grow by one exactly at a level-2
    heading outside a fence. *)
Lemma step_outside_frontmatter st l i :
  inFrontmatter st = false ->
  (i =? 0)%nat && Js.eqb l SLIDE_BREAK = false ->
  let fence := if startsWith l FENCE then negb (inCodeBlock st) else inCodeBlock st in
  inFrontmatter (step st l i) = false
  /\ inCodeBlock (step st l i) = fence
  /\ slide_count (step st l i)
     = (slide_count st
        + if negb fence && startsWith l (lit "## ") then 1 else 0)%nat.
Proof.
  intros Hf H0 fence. unfold step. rewrite H0, Hf. fold fence.
  unfold slide_count.
  destruct (negb fence && Js.eqb l SLIDE_BREAK) eqn:Hb.
  { apply andb_true_iff in Hb as [_ Hb]. rewrite (break_not_heading l Hb).
    rewrite andb_false_r. cbn [inFrontmatter inCodeBlock slides currentSlide].
    rewrite push_slide_length. repeat split; lia. }
  destruct (startsWith l (lit "Note:") || startsWith l (lit "Notes:")) eqn:Hn.
  { rewrite (note_not_heading l Hn), andb_false_r.
    cbn [inFrontmatter inCodeBlock slides currentSlide]. repeat split; lia. }
  destruct (negb fence && startsWith l (lit "## ")) eqn:Hh.
  { cbn [inFrontmatter inCodeBlock slides currentSlide].
    rewrite push_slide_length. repeat split; lia. }
  destruct (negb fence && startsWith l (lit "# ") && negb (startsWith l (lit "## "))).
  { cbn [inFrontmatter inCodeBlock slides currentSlide]. repeat split; lia. }
  destruct (currentSlide st) as [s|]; [destruct (inNotes st)|];
    cbn [inFrontmatter inCodeBlock slides currentSlide]; repeat split; lia.
Qed.

Lemma loop_outside_frontmatter lines : forall i st,
  i <> 0%nat -> inFrontmatter st = false ->
  slide_count (forEach_from step lines i st)
  = (slide_count st + headings (inCodeBlock st) lines)%nat.
Proof.
  induction lines as [|l ls IH]; intros i st Hi Hf; cbn [forEach_from headings].
  - lia.
  - assert (H0 : (i =? 0)%nat && Js.eqb l SLIDE_BREAK = false).
    { apply Nat.eqb_neq in Hi. now rewrite Hi. }
    destruct (step_outside_frontmatter st l i Hf H0) as [Hf' [Hc' Hn']].
    rewrite IH by (lia || assumption). rewrite Hc', Hn'. lia.
Qed.

Lemma loop_inside_frontmatter lines : forall i st,
  i <> 0%nat -> inFrontmatter st = true ->
  slide_count (forEach_from step lines i st)
  = (slide_count st + headings (inCodeBlock st) (after_frontmatter lines))%nat.
Proof.
  induction lines as [|l ls IH]; intros i st Hi Hf;
    cbn [forEach_from after_frontmatter headings].
  - lia.
  - assert (H0 : (i =? 0)%nat && Js.eqb l SLIDE_BREAK = false).
    { apply Nat.eqb_neq in Hi. now rewrite Hi. }
    unfold step at 2. rewrite H0, Hf.
    destruct (Js.eqb l SLIDE_BREAK).
    + rewrite loop_outside_frontmatter by (lia || reflexivity). reflexivity.
    + destruct (frontmatter_kv l) as [[k v]|];
        rewrite IH by (lia || assumption || reflexivity); reflexivity.
Qed.

Lemma split_nl_cons (s : str) : exists l ls, split_nl s = l :: ls.
Proof.
  induction s as [|c s [l [ls IH]]]; cbn [split_nl].
  - now exists [], [].
  - destruct (c =? NL)%N; [now exists [], (split_nl s)|].
    rewrite IH. now exists (c :: l), ls.
Qed.

(** C7, the claim as written, fails: a first line [---] opens the
    frontmatter, and a level-2 heading inside it (up to the closing
    [---], or to the end of the input when nothing closes it) opens no
    slide, code fence or not. *)
Lemma C7_frontmatter_heading_counterexample :
  headings false (split_nl open_frontmatter_doc) = 1%nat
  /\ snd (parseMarkdown open_frontmatter_doc) = []
  /\ headings false (split_nl frontmatter_heading_doc) = 2%nat
  /\ snd (parseMarkdown frontmatter_heading_doc)
     = [mkSlide (lit "B") [lit "world"] []].
Proof. repeat split; reflexivity. Qed.

(** C7, amended.  The parser returns as many slides as the document has
    level-2 headings outside code fences in the Markdown behind the
    frontmatter block, whether or not the last slide is closed by a
    delimiter; a slide still open when the input ends is emitted as the
    last one. *)
Theorem C7_slide_count (md : str) :
  length (snd (parseMarkdown md)) = headings false (body (split_nl md))
  /\ (forall s, currentSlide (parse_loop (split_nl md)) = Some s ->
        snd (parseMarkdown md) = slides (parse_loop (split_nl md)) ++ [s]).
Proof.
  split.
  - unfold parseMarkdown. cbn [snd]. rewrite push_slide_length.
    fold (slide_count (parse_loop (split_nl md))).
    unfold parse_loop, forEach.
    destruct (split_nl_cons md) as [l [ls ->]].
    cbn [forEach_from body].
    destruct (Js.eqb l SLIDE_BREAK) eqn:Hl.
    + unfold step. cbn [Nat.eqb andb]. rewrite Hl.
      rewrite loop_inside_frontmatter by (lia || reflexivity). reflexivity.
    + assert (H0 : (0 =? 0)%nat && Js.eqb l SLIDE_BREAK = false) by now rewrite Hl.
      destruct (step_outside_frontmatter init l 0 eq_refl H0) as [Hf' [Hc' Hn']].
      rewrite loop_outside_frontmatter by (lia || assumption).
      rewrite Hc', Hn'. cbn [headings inCodeBlock init]. reflexivity.
  - intros s Hs. unfold parseMarkdown. cbn [snd]. now rewrite Hs.
Qed.

Lemma C7_slide_count_witness :
  length (snd (parseMarkdown break_doc)) = 2%nat
  /\ length (snd (parseMarkdown frontmatter_heading_doc)) = 1%nat
  /\ length (snd (parseMarkdown fenced_markers_doc)) = 1%nat
  /\ snd (parseMarkdown notes_doc)
     = slides (parse_loop (split_nl notes_doc))
       ++ [mkSlide (lit "Intro") [lit "Hello"] []].
Proof.
  split; [exact (proj1 (C7_slide_count break_doc))|].
  split; [exact (proj1 (C7_slide_count frontmatter_heading_doc))|].
  split; [exact (proj1 (C7_slide_count fenced_markers_doc))|].
  apply (proj2 (C7_slide_count notes_doc)). reflexivity.
Defined.

End MarkdownParser.

(* ================================================================== *)
(** ** The diagram translator (C9) *)
(* ================================================================== *)

Section Diagram.

Lemma Map_get_set (m : NodeMap) k v x :
  Map_get (Map_set m k v) x = if str_dec x k then Some v else Map_get m x.
Proof.
  induction m as [|[k' v'] m IH]; cbn [Map_set Map_get].
  - destruct (str_dec x k) as [->|Hx].
    + replace (Js.eqb k k) with true; [reflexivity|]. symmetry. now apply eqb_eq.
    + destruct (Js.eqb k x) eqn:E; [apply eqb_eq in E; congruence | reflexivity].
  - destruct (Js.eqb k' k) eqn:E; cbn [Map_get].
    + apply eqb_eq in E. subst k'.
      destruct (str_dec x k) as [->|Hx].
      * replace (Js.eqb k k) with true; [reflexivity|]. symmetry. now apply eqb_eq.
      * destruct (Js.eqb k x) eqn:E; [apply eqb_eq in E; congruence | reflexivity].
    + destruct (Js.eqb k' x) eqn:E'; [|exact IH].
      apply eqb_eq in E'. subst k'.
      destruct (str_dec x k) as [->|Hx]; [|reflexivity].
      assert (Js.eqb k k = true) by now apply eqb_eq. congruence.
Qed.

(** The label of any id after an edge line. *)
Lemma graph_line_get nodes edges l fromId fromLabel toId toLabel x :
  edgeMatch l = Some (fromId, fromLabel, toId, toLabel) ->
  Map_get (fst (graph_line (nodes, edges) l)) x
  = match (if str_dec x toId then toLabel else None) with
    | Some lab => Some lab
    | None =>
      match (if str_dec x fromId then fromLabel else None) with
      | Some lab => Some lab
      | None =>
        match Map_get nodes x with
        | Some lab => Some lab
        | None => if str_dec x fromId then Some x
                  else if str_dec x toId then Some x else None
        end
      end
    end.
Proof.
  intros Hm. unfold graph_line. rewrite Hm. cbn [fst]. unfold Map_has.
  destruct fromLabel as [fl|], toLabel as [tl|];
    repeat (rewrite ?Map_get_set;
            repeat match goal with
                   | |- context [str_dec ?a ?b] => destruct (str_dec a b); subst; try congruence
                   | |- context [Map_get nodes ?a] => destruct (Map_get nodes a) eqn:?; try congruence
                   end; cbn [negb]); try congruence.
Qed.

Lemma Map_keys_set (m : NodeMap) k v :
  Map_keys (Map_set m k v)
  = if Map_has m k then Map_keys m else Map_keys m ++ [k].
Proof.
  unfold Map_has, Map_keys.
  induction m as [|[k' v'] m IH]; cbn [Map_set Map_get map app]; [reflexivity|].
  destruct (Js.eqb k' k) eqn:E; cbn [map fst]; [reflexivity|].
  rewrite IH. destruct (Map_get m k); reflexivity.
Qed.

Lemma Map_keys_set_prefix (m : NodeMap) k v :
  exists fresh, Map_keys (Map_set m k v) = Map_keys m ++ fresh.
Proof.
  rewrite Map_keys_set. destruct (Map_has m k);
    [exists []; now rewrite app_nil_r | now exists [k]].
Qed.

Ltac split_ids :=
  repeat match goal with
         | |- context [str_dec ?a ?b] => destruct (str_dec a b); subst; try congruence
         | |- context [Map_get ?m ?a] => destruct (Map_get m a) eqn:?; try congruence
         end.

(** What an edge line does to the graph, whatever the labels: both
    endpoints end up registered, an endpoint that carries no label on the
    line keeps the label it had or gets its id, the edge is appended, and
    the nodes registered before keep their places in front of the new
    ones. *)
Lemma graph_line_edge nodes edges l fromId fromLabel toId toLabel :
  edgeMatch l = Some (fromId, fromLabel, toId, toLabel) ->
  let nodes' := fst (graph_line (nodes, edges) l) in
  Map_has nodes' fromId = true
  /\ Map_has nodes' toId = true
  /\ (fromLabel = None -> (toLabel = None \/ toId <> fromId) ->
      Map_get nodes' fromId
      = Some (match Map_get nodes fromId with Some lab => lab | None => fromId end))
  /\ (toLabel = None -> (fromLabel = None \/ fromId <> toId) ->
      Map_get nodes' toId
      = Some (match Map_get nodes toId with Some lab => lab | None => toId end))
  /\ snd (graph_line (nodes, edges) l) = edges ++ [(fromId, toId, [])]
  /\ exists fresh, Map_keys nodes' = Map_keys nodes ++ fresh.
Proof.
  intros Hm nodes'.
  pose proof (fun x => graph_line_get nodes edges l fromId fromLabel toId toLabel x Hm) as G.
  fold nodes' in G.
  split; [|split; [|split; [|split; [|split]]]].
  - unfold Map_has. rewrite G. destruct fromLabel, toLabel; split_ids; reflexivity.
  - unfold Map_has. rewrite G. destruct fromLabel, toLabel; split_ids; reflexivity.
  - intros -> Hto. rewrite G. destruct toLabel; split_ids;
      try reflexivity; destruct Hto; congruence.
  - intros -> Hfrom. rewrite G. destruct fromLabel; split_ids;
      try reflexivity; destruct Hfrom; congruence.
  - unfold graph_line. rewrite Hm. reflexivity.
  - unfold nodes', graph_line. rewrite Hm. cbn [fst].
    set (n1 := match fromLabel with Some lab => Map_set nodes fromId lab | None => nodes end).
    set (n2 := match toLabel with Some lab => Map_set n1 toId lab | None => n1 end).
    set (n3 := if negb (Map_has n2 fromId) then Map_set n2 fromId fromId else n2).
    assert (K1 : exists f, Map_keys n1 = Map_keys nodes ++ f).
    { unfold n1. destruct fromLabel;
        [apply Map_keys_set_prefix | exists []; now rewrite app_nil_r]. }
    assert (K2 : exists f, Map_keys n2 = Map_keys nodes ++ f).
    { destruct K1 as [f1 E1]. unfold n2. destruct toLabel as [lab|]; [|now exists f1].
      destruct (Map_keys_set_prefix n1 toId lab) as [f E].
      exists (f1 ++ f). now rewrite E, E1, app_assoc. }
    assert (K3 : exists f, Map_keys n3 = Map_keys nodes ++ f).
    { destruct K2 as [f2 E2]. unfold n3.
      destruct (negb (Map_has n2 fromId)); [|now exists f2].
      destruct (Map_keys_set_prefix n2 fromId fromId) as [f E].
      exists (f2 ++ f). now rewrite E, E2, app_assoc. }
    destruct K3 as [f3 E3]. destruct (negb (Map_has n3 toId)); [|now exists f3].
    destruct (Map_keys_set_prefix n3 toId toId) as [f E].
    exists (f3 ++ f). now rewrite E, E3, app_assoc.
Qed.

(** C9 (code defect).  The line [A --> B[Two]] is an edge line whose
    source [A] is seen first.  Both ids are registered, [A] with its id as
    label, and the edge is appended; but the labelled target is inserted
    before the source, so the insertion order is [B], [A], and the
    picture places [B] first with [A] to its right.  With both labels or
    with none the source is inserted first. *)
Theorem C9_target_inserted_first :
  edgeMatch (lit "A --> B[Two]") = Some (lit "A", None, lit "B", Some (lit "Two"))
  /\ parse_graph (split_nl (trim labelled_target_graph))
     = ([(lit "B", lit "Two"); (lit "A", lit "A")], [(lit "A", lit "B", [])])
  /\ Map_keys (fst (parse_graph (split_nl (trim labelled_target_graph))))
     <> [lit "A"; lit "B"]
  /\ Map_keys (fst (graph_line ([], []) (lit "A --> B"))) = [lit "A"; lit "B"]
  /\ Map_keys (fst (graph_line ([], []) (lit "A[One] --> B[Two]")))
     = [lit "A"; lit "B"]
  /\ mermaidToTikz labelled_target_graph
     = lit "\begin{tikzpicture}[node distance=2cm, auto," ++ [NL]
       ++ lit "  box/.style={draw, rounded corners, minimum width=2cm, minimum height=0.8cm}]" ++ [NL]
       ++ lit "  \node[box] (B) {Two};" ++ [NL]
       ++ lit "  \node[box, right=of B] (A) {A};" ++ [NL]
       ++ lit "  \draw[->] (A) -- (B);" ++ [NL]
       ++ lit "\end{tikzpicture}".
Proof.
  repeat split; try reflexivity. vm_compute. discriminate.
Qed.

End Diagram.

(* ================================================================== *)
(** ** Escaping and inline formatting (C1) *)
(* ================================================================== *)

Section Escaping.

Import EscapeSpec.






















End Escaping.

(* ================================================================== *)
(** ** The HTML exporter (C10) *)
(* ================================================================== *)

Section Exporter.

Import ExportHtml FrameSpec.

Lemma until_spec c s r t :
  until c s = Some (r, t) -> s = r ++ c :: t /\ ~ In c r.
Proof.
  revert r t; induction s as [|x s IH]; intros r t; cbn [until]; [discriminate|].
  destruct (N.eqb_spec x c) as [->|Hx].
  - intros H. injection H as <- <-. split; [reflexivity | intros []].
  - destruct (until c s) as [[r' t']|]; [|discriminate].
    intros H. injection H as <- <-.
    destruct (IH r' t' eq_refl) as [-> Hn].
    split; [reflexivity|]. intros [H|H]; [congruence | contradiction].
Qed.

Lemma indexOf_spec s p k :
  indexOf s p = Some k ->
  exists rest, s = firstn k s ++ p ++ rest /\ length (firstn k s) = k.
Proof.
  revert k; induction s as [|x s IH]; intros k; cbn [indexOf].
  - destruct (startsWith [] p) eqn:E; [|discriminate].
    intros H. injection H as <-. apply startsWith_iff in E.
    destruct E as [t Ht]. now exists t.
  - destruct (startsWith (x :: s) p) eqn:E.
    + intros H. injection H as <-. apply startsWith_iff in E.
      destruct E as [t Ht]. now exists t.
    + destruct (indexOf s p) as [k'|]; [|discriminate].
      cbn [option_map]. intros H. injection H as <-.
      destruct (IH k' eq_refl) as [rest [Hr Hl]]. exists rest.
      cbn [firstn app length]. rewrite Hl. now rewrite <- Hr.
Qed.

Lemma skipn_length_app {A : Type} (a b : list A) : skipn (length a) (a ++ b) = b.
Proof. induction a as [|x a IH]; [reflexivity | exact IH]. Qed.

Lemma lazy_bracket_spec {A : Type} (k : str -> option (A * nat)) r a n :
  lazy_bracket k r = Some (a, n) ->
  exists o r' n', r = o ++ RBRACKET :: r' /\ k r' = Some (a, n')
                  /\ n = (length o + 1 + n')%nat /\ no_line_terminator o.
Proof.
  revert n; induction r as [|c r IH]; intros n; cbn [lazy_bracket]; [discriminate|].
  destruct (if (c =? RBRACKET)%N then k r else None) as [[a0 n0]|] eqn:E.
  - intros H. injection H as <- <-.
    destruct (N.eqb_spec c RBRACKET) as [->|]; [|discriminate].
    exists [], r, n0. repeat split; assumption.
  - destruct (is_line_terminator c) eqn:Hc; [discriminate|].
    destruct (lazy_bracket k r) as [[a1 n1]|]; [|discriminate].
    intros H. injection H as <- <-.
    destruct (IH n1 eq_refl) as [o [r' [n' [-> [Hk [-> Ho]]]]]].
    exists (c :: o), r', n'. repeat split; try assumption.
    unfold no_line_terminator. cbn [forallb]. now rewrite Hc.
Qed.

Lemma opt_group_spec {A : Type} (k : str -> option (A * nat)) r a n :
  opt_group k r = Some (a, n) ->
  exists opt r' n', r = opt ++ r' /\ k r' = Some (a, n')
                    /\ n = (length opt + n')%nat /\ bracket_option opt.
Proof.
  unfold opt_group.
  destruct r as [|c r].
  - intros H. exists [], [], n. repeat split; try assumption. now left.
  - destruct (N.eqb_spec c LBRACKET) as [->|Hc].
    + destruct (lazy_bracket k r) as [[a1 n1]|] eqn:E.
      * intros H. injection H as <- <-.
        destruct (lazy_bracket_spec k r a1 n1 E) as [o [r' [n' [-> [Hk [-> Ho]]]]]].
        exists (LBRACKET :: o ++ [RBRACKET]), r', n'.
        repeat split; try assumption.
        -- cbn [app]. now rewrite <- app_assoc.
        -- cbn [length]. rewrite length_app. cbn [length]. lia.
        -- right. now exists o.
      * intros H. exists [], (LBRACKET :: r), n. repeat split; try assumption. now left.
    + intros H. exists [], (c :: r), n. repeat split; try assumption. now left.
Qed.

Lemma frame_rest_spec r t b n :
  frame_rest r = Some ((t, b), n) ->
  exists rest, r = LBRACE :: t ++ RBRACE :: b ++ END_FRAME ++ rest
               /\ n = length (LBRACE :: t ++ RBRACE :: b ++ END_FRAME)
               /\ ~ In RBRACE t.
Proof.
  unfold frame_rest. destruct r as [|c r1]; [discriminate|].
  destruct (N.eqb_spec c LBRACE) as [->|]; [|discriminate].
  destruct (until RBRACE r1) as [[t' r2]|] eqn:Eu; [|discriminate].
  destruct (indexOf r2 END_FRAME) as [k|] eqn:Ei; [|discriminate].
  intros H. injection H as <- <- <-.
  destruct (until_spec _ _ _ _ Eu) as [-> Hn].
  destruct (indexOf_spec _ _ _ Ei) as [rest [Hr Hk]].
  exists rest. repeat split; [|  |assumption].
  - now rewrite <- Hr.
  - cbn [length]. rewrite !length_app. cbn [length]. rewrite length_app.
    rewrite Hk. change (length END_FRAME) with 11%nat. lia.
Qed.

Lemma frame_at_spec s t b rest len :
  frame_at s = Some ((t, b, rest), len) ->
  exists opt,
    s = BEGIN_FRAME ++ opt ++ LBRACE :: t ++ RBRACE :: b ++ END_FRAME ++ rest
    /\ bracket_option opt /\ ~ In RBRACE t.
Proof.
  unfold frame_at. destruct (startsWith s BEGIN_FRAME) eqn:Es; [|discriminate].
  apply startsWith_iff in Es. destruct Es as [r ->].
  rewrite skipn_length_app.
  destruct (opt_group frame_rest r) as [[[t' b'] n]|] eqn:Eo; [|discriminate].
  intros H. injection H as <- <- <- <-.
  destruct (opt_group_spec _ _ _ _ Eo) as [opt [r' [n' [-> [Hk [-> Hopt]]]]]].
  destruct (frame_rest_spec _ _ _ _ Hk) as [rest' [-> [-> Hn]]].
  exists opt. split; [|split; assumption].
  set (m := LBRACE :: t' ++ RBRACE :: b' ++ END_FRAME).
  assert (Hs : skipn (length opt + length m) (opt ++ m ++ rest') = rest').
  { rewrite app_assoc, <- length_app. apply skipn_length_app. }
  unfold m in Hs at 2. cbn [app] in Hs.
  repeat (rewrite <- app_assoc in Hs || rewrite <- app_comm_cons in Hs).
  rewrite Hs. reflexivity.
Qed.

Lemma matchAll_go_spec {A : Type} (m : str -> option (A * nat)) a s : forall skip,
  In a (matchAll_go m skip s) ->
  exists pre suf len, s = pre ++ suf /\ m suf = Some (a, len).
Proof.
  induction s as [|c s IH]; intros skip; cbn [matchAll_go]; [intros []|].
  assert (Hrec : forall k, In a (matchAll_go m k s) ->
            exists pre suf len, c :: s = pre ++ suf /\ m suf = Some (a, len)).
  { intros k Hk. destruct (IH k Hk) as [pre [suf [len [-> Hm]]]].
    now exists (c :: pre), suf, len. }
  destruct skip as [|k]; [|apply Hrec].
  destruct (m (c :: s)) as [[a0 len]|] eqn:E; [|apply Hrec].
  intros [<-|H]; [|now apply (Hrec _ H)].
  now exists [], (c :: s), len.
Qed.






End Exporter.

(* ================================================================== *)
(** ** The linter: order and anchors of the report *)
(* ================================================================== *)

Section LintReport.

Import ReportSpec.

Lemma sort_insert_perm x l : Permutation (sort_insert x l) (x :: l).
Proof.
  induction l as [|y l IH]; cbn [sort_insert]; [reflexivity|].
  destruct (line x <=? line y)%Z; [reflexivity|].
  rewrite IH. apply perm_swap.
Qed.

Lemma sort_by_line_perm l : Permutation (sort_by_line l) l.
Proof.
  induction l as [|x l IH]; cbn [sort_by_line fold_right]; [reflexivity|].
  fold (sort_by_line l). rewrite sort_insert_perm. now constructor.
Qed.

Lemma sort_insert_sorted x l :
  StronglySorted by_line l -> StronglySorted by_line (sort_insert x l).
Proof.
  induction 1 as [|y l Hl IH Hy]; cbn [sort_insert].
  - repeat constructor.
  - destruct (Z.leb_spec (line x) (line y)) as [Hxy|Hxy].
    + constructor; [now constructor|].
      constructor; [exact Hxy|].
      eapply Forall_impl; [|exact Hy]. unfold by_line. intros z Hz. lia.
    + constructor; [exact IH|].
      apply Forall_forall. intros z Hz. apply sort_insert_In in Hz.
      destruct Hz as [->|Hz]; [unfold by_line; lia|].
      rewrite Forall_forall in Hy. now apply Hy.
Qed.

Lemma sort_by_line_sorted l : StronglySorted by_line (sort_by_line l).
Proof.
  induction l as [|x l IH]; cbn [sort_by_line fold_right]; [constructor|].
  now apply sort_insert_sorted.
Qed.

Lemma sort_insert_at k x l :
  filter (fun i => (line i =? k)%Z) (sort_insert x l)
  = filter (fun i => (line i =? k)%Z) (x :: l).
Proof.
  induction l as [|y l IH]; cbn [sort_insert]; [reflexivity|].
  destruct (Z.leb_spec (line x) (line y)) as [Hxy|Hxy]; [reflexivity|].
  cbn [filter] in *. rewrite IH.
  destruct (Z.eqb_spec (line x) k) as [Hx|Hx]; [|reflexivity].
  destruct (Z.eqb_spec (line y) k) as [Hy|Hy]; [lia | reflexivity].
Qed.

Lemma sort_by_line_at k l :
  filter (fun i => (line i =? k)%Z) (sort_by_line l)
  = filter (fun i => (line i =? k)%Z) l.
Proof.
  induction l as [|x l IH]; cbn [sort_by_line fold_right]; [reflexivity|].
  fold (sort_by_line l). rewrite sort_insert_at. cbn [filter]. now rewrite IH.
Qed.

(** The report is the collected issues in ascending line order; issues
    of one line keep the order in which the rules found them. *)
Theorem lint_report_order (content : str) :
  StronglySorted by_line (issues (lint content))
  /\ Permutation (issues (lint content)) (collect content)
  /\ (forall k,
        filter (fun i => (line i =? k)%Z) (issues (lint content))
        = filter (fun i => (line i =? k)%Z) (collect content)).
Proof.
  unfold lint. cbn [issues]. split; [apply sort_by_line_sorted|].
  split; [apply sort_by_line_perm | intros k; apply sort_by_line_at].
Qed.

End LintReport.

Section LintLines.

Import ReportSpec.

Lemma forEach_from_inv {A St : Type} (P : St -> Prop) (f : St -> A -> nat -> St)
      (n : nat) (l : list A) :
  (forall st x idx, P st -> (idx < n)%nat -> P (f st x idx)) ->
  forall idx st, (idx + length l <= n)%nat -> P st -> P (forEach_from f l idx st).
Proof.
  intros Hf. induction l as [|x l IH]; intros idx st Hn Hst; [exact Hst|].
  cbn [forEach_from length] in *. apply IH; [lia|]. apply Hf; [exact Hst | lia].
Qed.

Lemma fold_left_inv {A St : Type} (P : St -> Prop) (f : St -> A -> St) (l : list A) :
  (forall st x, P st -> P (f st x)) -> forall st, P st -> P (fold_left f l st).
Proof.
  intros Hf. induction l as [|x l IH]; intros st Hst; [exact Hst|].
  cbn [fold_left]. apply IH. now apply Hf.
Qed.

Lemma Forall_snoc {A : Type} (P : A -> Prop) l x :
  Forall P l -> P x -> Forall P (l ++ [x]).
Proof. intros Hl Hx. apply Forall_app. split; [exact Hl | now constructor]. Qed.

Lemma idx_on_a_line n idx sev msg rl :
  (idx < n)%nat -> on_a_line n (mkIssue (Z.of_nat idx + 1) sev msg rl).
Proof. unfold on_a_line. cbn [line]. lia. Qed.

Lemma unmatchedBraces_lines (lines : list str) :
  Forall (on_a_line (length lines)) (unmatchedBraces lines).
Proof.
  unfold unmatchedBraces, forEach.
  set (n := length lines).
  assert (H : Forall (on_a_line n) (snd (forEach_from brace_line lines 0 (0%Z, [])))
              /\ (0 <= fst (forEach_from brace_line lines 0 (0%Z, [])))%Z
              /\ (lines = [] -> fst (forEach_from brace_line lines 0 (0%Z, [])) = 0%Z)).
  { split; [|split].
    - apply (forEach_from_inv (fun st => Forall (on_a_line n) (snd st)) brace_line n);
        [|unfold n; lia | constructor].
      intros st l idx Hst Hidx. unfold brace_line.
      apply fold_left_inv; [|exact Hst].
      intros [bc iss] c Hi. unfold brace_char.
      destruct (_ <? 0)%Z; cbn [snd] in *; [|exact Hi].
      apply Forall_snoc; [exact Hi|]. now apply idx_on_a_line.
    - apply (forEach_from_inv (fun st => (0 <= fst st)%Z) brace_line n);
        [|unfold n; lia | cbn; lia].
      intros st l idx Hst _. unfold brace_line.
      apply fold_left_inv; [|exact Hst]. intros st' c. apply brace_char_nonneg.
    - intros ->. reflexivity. }
  destruct (forEach_from brace_line lines 0 (0%Z, [])) as [bc iss].
  cbn [fst snd] in H. destruct H as [Hi [Hbc H0]].
  destruct (Z.gtb_spec bc 0); [|exact Hi].
  apply Forall_snoc; [exact Hi|].
  unfold on_a_line, unclosed. cbn [line]. fold n.
  destruct lines as [|l ls]; [specialize (H0 eq_refl); lia|]. unfold n. cbn [length]. lia.
Qed.

Lemma unmatchedEnvironments_lines (lines : list str) :
  Forall (on_a_line (length lines)) (unmatchedEnvironments lines).
Proof.
  unfold unmatchedEnvironments, forEach.
  set (n := length lines).
  set (ok := fun st : EnvStack * list LintIssue =>
               Forall (fun e => (1 <= snd e <= Z.of_nat n)%Z) (fst st)
               /\ Forall (on_a_line n) (snd st)).
  assert (H : ok (forEach_from env_line lines 0 ([], []))).
  { apply (forEach_from_inv ok env_line n); [|unfold n; lia | split; constructor].
    intros [stack iss] l idx [Hs Hi] Hidx. unfold env_line.
    apply fold_left_inv.
    - intros [stk is'] name [Hs' Hi']. unfold env_end, pop.
      assert (Hrev : Forall (fun e => (1 <= snd e <= Z.of_nat n)%Z) (rev stk))
        by now apply Forall_rev.
      destruct (rev stk) as [|[tn tl] r] eqn:E; cbn [fst snd] in *.
      + split; [exact Hs'|]. apply Forall_snoc; [exact Hi'|]. now apply idx_on_a_line.
      + inversion Hrev as [|? ? Ht Hr]; subst.
        assert (Hr' : Forall (fun e => (1 <= snd e <= Z.of_nat n)%Z) (rev r))
          by now apply Forall_rev.
        destruct (negb (Js.eqb tn name)); cbn [fst snd]; split; try assumption.
        apply Forall_snoc; [exact Hi'|]. now apply idx_on_a_line.
    - split; [|exact Hi]. cbn [fst].
      apply (fold_left_inv (Forall (fun e => (1 <= snd e <= Z.of_nat n)%Z))); [|exact Hs].
      intros stk name Hstk. apply Forall_snoc; [exact Hstk|]. cbn [snd]. lia. }
  destruct (forEach_from env_line lines 0 ([], [])) as [stack iss].
  destruct H as [Hs Hi]. cbn [fst snd] in *.
  apply Forall_app. split; [exact Hi|].
  apply Forall_map. eapply Forall_impl; [|exact Hs].
  intros e He. unfold on_a_line. cbn [line]. exact He.
Qed.

Lemma underscoreInText_lines (lines : list str) :
  Forall (on_a_line (length lines)) (underscoreInText lines).
Proof.
  unfold underscoreInText, forEach.
  apply (forEach_from_inv (fun st => Forall (on_a_line (length lines)) (snd st))
                          underscore_line (length lines));
    [|lia | constructor].
  intros [b iss] l idx Hst Hidx. unfold underscore_line. cbn [snd] in *.
  repeat match goal with
         | |- context [if ?c then _ else _] => destruct c
         end; cbn [snd]; try exact Hst;
    (apply Forall_snoc; [exact Hst | now apply idx_on_a_line]).
Qed.

Lemma split_nl_length (s : str) : (1 <= length (split_nl s))%nat.
Proof. destruct (split_nl_cons s) as [l [ls ->]]. cbn. lia. Qed.

(** Every issue of the report is anchored at a line of the text read. *)
Theorem lint_issue_lines (content : str) :
  Forall (on_a_line (length (split_nl content))) (issues (lint content)).
Proof.
  assert (Hc : Forall (on_a_line (length (split_nl content))) (collect content));
    [|apply Forall_forall; intros i Hi; unfold lint in Hi; cbn [issues] in Hi;
      apply (proj1 (sort_by_line_In _ _)) in Hi; rewrite Forall_forall in Hc;
      now apply Hc].
  unfold collect.
  pose proof (split_nl_length content) as Hn.
  assert (H1 : forall o : option LintIssue,
             (forall i, o = Some i -> line i = 1%Z) ->
             Forall (on_a_line (length (split_nl content))) (opt_issue o)).
  { intros [i|] Ho; cbn [opt_issue]; constructor; [|constructor].
    unfold on_a_line. rewrite (Ho i eq_refl). lia. }
  repeat (apply Forall_app; split).
  - apply H1. unfold missingDocumentClass. intros i.
    destruct (negb _); [|discriminate]. intros H; injection H as <-. reflexivity.
  - apply H1. unfold missingBeginDocument. intros i.
    destruct (negb _); [|discriminate]. intros H; injection H as <-. reflexivity.
  - apply H1. unfold missingEndDocument. intros i.
    destruct (negb _); [|discriminate]. intros H; injection H as <-. reflexivity.
  - apply unmatchedBraces_lines.
  - apply unmatchedEnvironments_lines.
  - unfold frameWithoutTitle, forEach.
    apply (forEach_from_inv (Forall (on_a_line (length (split_nl content))))
                            (frame_line (split_nl content)) (length (split_nl content)));
      [|lia | constructor].
    intros st l idx Hst _. now rewrite frame_line_silent.
  - apply underscoreInText_lines.
Qed.

End LintLines.

(* ================================================================== *)
(** ** The linter: more on the rules *)
(* ================================================================== *)

Section LintMore.
Import BraceSpec.

Lemma error_issue_fails (content : str) (i : LintIssue) :
  In i (collect content) -> severity i = error -> exit (lint content) = Some 1%Z.
Proof.
  intros Hi He. unfold lint. cbn [exit].
  set (errs := filter _ _).
  assert (Hin : In i errs).
  { unfold errs. apply filter_In. split; [now apply sort_by_line_In|].
    now rewrite He. }
  destruct errs as [|e errs']; [destruct Hin | reflexivity].
Qed.

(** A text that lacks the document class, the begin-document marker or
    the end-document marker never passes. *)
Theorem lint_missing_marker_fails (content : str) :
  includes content (lit "\documentclass") = false
  \/ includes content (lit "\begin{document}") = false
  \/ includes content (lit "\end{document}") = false ->
  exit (lint content) = Some 1%Z.
Proof.
  intros [H|[H|H]].
  - apply (error_issue_fails content
             (mkIssue 1 error (lit "Missing \documentclass") (lit "document-class")));
      [|reflexivity].
    unfold collect, missingDocumentClass. rewrite H. now left.
  - apply (error_issue_fails content
             (mkIssue 1 error (lit "Missing \begin{document}") (lit "begin-document")));
      [|reflexivity].
    unfold collect, missingBeginDocument. rewrite H.
    apply in_or_app. right. now left.
  - apply (error_issue_fails content
             (mkIssue 1 error (lit "Missing \end{document}") (lit "end-document")));
      [|reflexivity].
    unfold collect, missingEndDocument. rewrite H.
    apply in_or_app. right. apply in_or_app. right. now left.
Qed.

Lemma lint_missing_marker_fails_witness :
  exit (lint (lit "\documentclass{beamer}\begin{document}")) = Some 1%Z.
Proof.
  apply lint_missing_marker_fails. right. right. reflexivity.
Defined.

(** Replacements by the empty text only take code units away. *)
Lemma replace_go_erases (m : str -> option (str * nat)) :
  (forall t r n, m t = Some (r, n) -> r = []) ->
  forall s skip c, In c (replace_go m skip s) -> In c s.
Proof.
  intros Hm. induction s as [|x s IH]; intros skip c; cbn [replace_go]; [trivial|].
  destruct skip as [|k].
  - destruct (m (x :: s)) as [[r n]|] eqn:E.
    + rewrite (Hm _ _ _ E). cbn [app]. intros H. right. now apply (IH _ _ H).
    + intros [->|H]; [now left | right; now apply (IH _ _ H)].
  - intros H. right. now apply (IH _ _ H).
Qed.

Lemma strip_line_erases (l : str) (c : N) : In c (strip_line l) -> In c l.
Proof.
  unfold strip_line, replace_all. intros H.
  apply replace_go_erases in H.
  2:{ intros t r n. unfold m_command. destruct t as [|a t]; [discriminate|].
      destruct (a =? BACKSLASH)%N; [|discriminate].
      destruct (takeWhile is_letter t); [discriminate|].
      intros E. now injection E as <- _. }
  apply replace_go_erases in H.
  2:{ intros t r n. unfold m_lit. destruct (startsWith t _); [|discriminate].
      intros E. now injection E as <- _. }
  apply replace_go_erases in H.
  2:{ intros t r n. unfold m_texttt. destruct (startsWith t _); [|discriminate].
      destruct (until RBRACE _) as [[[|x b] u]|]; try discriminate.
      intros E. now injection E as <- _. }
  apply replace_go_erases in H; [exact H|].
  intros t r n. unfold m_inline_math. destruct t as [|a t]; [discriminate|].
  destruct (a =? DOLLAR)%N; [|discriminate].
  destruct (until DOLLAR t) as [[[|x b] u]|]; try discriminate.
  intros E. now injection E as <- _.
Qed.

Lemma includes_unit_In (s : str) (c : N) : includes s [c] = true -> In c s.
Proof.
  intros H. apply includes_iff in H. destruct H as [a [t ->]].
  apply in_or_app. right. now left.
Qed.

(** An underscore warning always points at a line that holds an
    underscore. *)
Theorem underscore_warning_has_underscore (lines : list str) (i : LintIssue) :
  In i (underscoreInText lines) ->
  exists idx l,
    nth_error lines idx = Some l /\ i = underscore_issue idx /\ In UNDERSCORE l.
Proof.
  unfold underscoreInText, forEach.
  assert (G : forall ls idx0 st,
             (forall j, In j (snd st) ->
                exists idx l, nth_error lines idx = Some l /\ j = underscore_issue idx
                              /\ In UNDERSCORE l) ->
             (forall k l, nth_error ls k = Some l -> nth_error lines (idx0 + k) = Some l) ->
             forall j, In j (snd (forEach_from underscore_line ls idx0 st)) ->
                exists idx l, nth_error lines idx = Some l /\ j = underscore_issue idx
                              /\ In UNDERSCORE l).
  { induction ls as [|l ls IH]; intros idx0 st Hst Hls; cbn [forEach_from]; [exact Hst|].
    apply IH.
    - destruct st as [b iss]. unfold underscore_line. cbn [snd] in Hst.
      assert (Hl : nth_error lines idx0 = Some l).
      { specialize (Hls 0%nat l eq_refl). now rewrite Nat.add_0_r in Hls. }
      repeat match goal with
             | |- context [if ?c then _ else _] => destruct c eqn:?
             end; cbn [snd]; try exact Hst;
        intros j Hj; apply in_app_or in Hj; destruct Hj as [Hj|[<-|[]]];
        try (now apply Hst);
        exists idx0, l; repeat split; try assumption;
        apply strip_line_erases; now apply includes_unit_In.
    - intros k l' Hk. specialize (Hls (S k) l' Hk).
      now replace (S idx0 + k)%nat with (idx0 + S k)%nat by lia. }
  apply (G lines 0%nat (false, [])); [intros j [] | intros k l Hk; exact Hk].
Qed.

Lemma underscore_warning_has_underscore_witness :
  exists idx l,
    nth_error [lit "plain"; lit "a_b"] idx = Some l
    /\ underscore_issue 1 = underscore_issue idx /\ In UNDERSCORE l.
Proof.
  apply (underscore_warning_has_underscore [lit "plain"; lit "a_b"]).
  vm_compute. left. reflexivity.
Defined.

(** The brace check is silent exactly on the texts whose braces,
    comments left out, are properly nested. *)
Theorem unmatchedBraces_silent_iff_balanced (lines : list str) :
  unmatchedBraces lines = [] <-> balanced (braces lines).
Proof.
  split.
  - intros H. destruct (unmatched_total (braces lines)) as [closes [n Hu]].
    rewrite (unmatchedBraces_report lines closes n Hu) in H.
    apply app_eq_nil in H. destruct H as [Hc Hn].
    destruct closes; [|discriminate].
    destruct n; [|discriminate].
    inversion Hu as [w k Ht|]; subst. now inversion Ht.
  - intros H.
    rewrite (unmatchedBraces_report lines [] 0); [reflexivity|].
    now apply um_tail, ut_done.
Qed.




End LintMore.

(* ================================================================== *)
(** ** The Markdown parser: provenance and title *)
(* ================================================================== *)

Section ParserMore.

Import ReportSpec.

Lemma push_slide_from lines sl cur :
  Forall (slide_from lines) sl ->
  (forall s, cur = Some s -> slide_from lines s) ->
  Forall (slide_from lines) (push_slide sl cur).
Proof.
  intros Hsl Hcur. destruct cur as [s|]; cbn [push_slide]; [|exact Hsl].
  apply Forall_app. split; [exact Hsl|]. constructor; [now apply Hcur | constructor].
Qed.

Lemma step_from lines st l i :
  In l lines -> state_from lines st -> state_from lines (step st l i).
Proof.
  intros Hl [Hsl Hcur]. unfold step.
  destruct ((i =? 0)%nat && Js.eqb l SLIDE_BREAK); [now split|].
  destruct (inFrontmatter st).
  { destruct (Js.eqb l SLIDE_BREAK); [now split|].
    destruct (frontmatter_kv l) as [[k v]|]; now split. }
  set (fence := if startsWith l FENCE then negb (inCodeBlock st) else inCodeBlock st).
  destruct (negb fence && Js.eqb l SLIDE_BREAK).
  { split; cbn [slides currentSlide]; [now apply push_slide_from | discriminate]. }
  destruct (startsWith l (lit "Note:") || startsWith l (lit "Notes:")) eqn:Hn.
  { now split. }
  apply orb_false_iff in Hn. destruct Hn as [Hn1 Hn2].
  destruct (negb fence && startsWith l (lit "## ")) eqn:Hh.
  { apply andb_true_iff in Hh. destruct Hh as [_ Hh].
    split; cbn [slides currentSlide]; [now apply push_slide_from|].
    intros s E. injection E as <-. split.
    - exists l. now repeat split.
    - cbn [content notes]. intros x [[]|[]]. }
  destruct (negb fence && startsWith l (lit "# ") && negb (startsWith l (lit "## "))).
  { now split. }
  destruct (currentSlide st) as [s|] eqn:Ec; [|split; [exact Hsl | discriminate]].
  destruct (Hcur s eq_refl) as [Ht Hc].
  destruct (inNotes st); (split; cbn [slides currentSlide]; [exact Hsl|]);
    intros s' E; injection E as <-; (split; [exact Ht|]);
    cbn [content notes]; intros x Hx.
  - destruct Hx as [Hx|Hx]; [apply Hc; now left|].
    apply in_app_or in Hx. destruct Hx as [Hx|[<-|[]]]; [apply Hc; now right|].
    now repeat split.
  - destruct Hx as [Hx|Hx]; [|apply Hc; now right].
    apply in_app_or in Hx. destruct Hx as [Hx|[<-|[]]]; [apply Hc; now left|].
    now repeat split.
Qed.

Lemma loop_from lines : forall ls i st,
  incl ls lines -> state_from lines st ->
  state_from lines (forEach_from step ls i st).
Proof.
  induction ls as [|l ls IH]; intros i st Hin Hst; [exact Hst|].
  cbn [forEach_from]. apply IH.
  - intros x Hx. apply Hin. now right.
  - apply step_from; [apply Hin; now left | exact Hst].
Qed.

(** Every slide the parser returns is built from lines of the input:
    its title from a level-2 heading, its content and notes from lines
    that carry no notes marker. *)
Theorem parseMarkdown_slides_from_input (md : str) :
  Forall (slide_from (split_nl md)) (snd (parseMarkdown md)).
Proof.
  unfold parseMarkdown. cbn [snd].
  assert (H : state_from (split_nl md) (parse_loop (split_nl md))).
  { unfold parse_loop, forEach. apply loop_from; [apply incl_refl|].
    split; [constructor | discriminate]. }
  destruct H as [Hsl Hcur]. now apply push_slide_from.
Qed.




End ParserMore.

(* ================================================================== *)
(** ** The diagram translator: registration and fallback *)
(* ================================================================== *)

Section DiagramMore.

Lemma graph_line_edge_witness :
  let nodes' := fst (graph_line ([(lit "B", lit "Old")], []) (lit "A --> B")) in
  Map_has nodes' (lit "A") = true
  /\ Map_has nodes' (lit "B") = true
  /\ Map_get nodes' (lit "A") = Some (lit "A")
  /\ Map_get nodes' (lit "B") = Some (lit "Old")
  /\ snd (graph_line ([(lit "B", lit "Old")], []) (lit "A --> B"))
     = [(lit "A", lit "B", [])]
  /\ exists fresh, Map_keys nodes' = [lit "B"] ++ fresh.
Proof.
  destruct (graph_line_edge [(lit "B", lit "Old")] [] (lit "A --> B")
              (lit "A") None (lit "B") None eq_refl)
    as [H1 [H2 [H3 [H4 [H5 H6]]]]].
  refine (conj H1 (conj H2 (conj _ (conj _ (conj H5 H6))))).
  - apply H3; [reflexivity | now left].
  - apply H4; [reflexivity | now left].
Defined.

Lemma graph_line_has nodes edges l x :
  Map_has nodes x = true -> Map_has (fst (graph_line (nodes, edges) l)) x = true.
Proof.
  unfold Map_has. intros H.
  destruct (Map_get nodes x) as [lab|] eqn:E; [|discriminate].
  destruct (edgeMatch l) as [[[[f fl] t] tl]|] eqn:Em.
  - rewrite (graph_line_get nodes edges l f fl t tl x Em), E.
    destruct (str_dec x t), tl, (str_dec x f), fl; reflexivity.
  - unfold graph_line. rewrite Em.
    destruct (nodeMatch l) as [[id label]|]; cbn [fst]; [|now rewrite E].
    rewrite Map_get_set, E. destruct (str_dec x id); reflexivity.
Qed.

Lemma graph_line_new_edge nodes edges l f t lab :
  In (f, t, lab) (snd (graph_line (nodes, edges) l)) ->
  In (f, t, lab) edges
  \/ (Map_has (fst (graph_line (nodes, edges) l)) f = true
      /\ Map_has (fst (graph_line (nodes, edges) l)) t = true).
Proof.
  destruct (edgeMatch l) as [[[[f0 fl] t0] tl]|] eqn:Em.
  - intros H.
    assert (Hs : snd (graph_line (nodes, edges) l) = edges ++ [(f0, t0, [])])
      by (unfold graph_line; now rewrite Em).
    rewrite Hs in H. apply in_app_or in H. destruct H as [H|[H|[]]]; [now left|].
    injection H as <- <- <-. right. unfold Map_has.
    rewrite !(graph_line_get nodes edges l f0 fl t0 tl _ Em).
    split.
    + destruct (str_dec f0 t0), tl, (str_dec f0 f0), fl, (Map_get nodes f0);
        congruence.
    + destruct (str_dec t0 t0), tl, (str_dec t0 f0), fl, (Map_get nodes t0);
        congruence.
  - unfold graph_line. rewrite Em.
    destruct (nodeMatch l) as [[id label]|]; cbn [snd]; now left.
Qed.

(** Every edge of the parsed graph joins two nodes of its node map, so
    each arrow drawn runs between two placed nodes. *)
Theorem parse_graph_edges_registered (lines : list str) f t lab :
  In (f, t, lab) (snd (parse_graph lines)) ->
  Map_has (fst (parse_graph lines)) f = true
  /\ Map_has (fst (parse_graph lines)) t = true.
Proof.
  unfold parse_graph.
  assert (G : forall ls st,
             (forall a b c, In (a, b, c) (snd st) ->
                Map_has (fst st) a = true /\ Map_has (fst st) b = true) ->
             forall a b c, In (a, b, c) (snd (fold_left graph_line ls st)) ->
                Map_has (fst (fold_left graph_line ls st)) a = true
                /\ Map_has (fst (fold_left graph_line ls st)) b = true).
  { induction ls as [|l ls IH]; intros st Hst; [exact Hst|].
    cbn [fold_left]. apply IH. destruct st as [nodes edges].
    intros a b c Hin. apply graph_line_new_edge in Hin.
    destruct Hin as [Hin|Hin]; [|exact Hin].
    destruct (Hst a b c Hin) as [Ha Hb]. cbn [fst] in *.
    split; now apply graph_line_has. }
  apply G. intros a b c [].
Qed.

Lemma parse_graph_edges_registered_witness :
  Map_has (fst (parse_graph (split_nl labelled_target_graph))) (lit "A") = true
  /\ Map_has (fst (parse_graph (split_nl labelled_target_graph))) (lit "B") = true.
Proof.
  apply (parse_graph_edges_registered (split_nl labelled_target_graph)
           (lit "A") (lit "B") []).
  vm_compute. left. reflexivity.
Defined.

Lemma place_nodes_append direction nodes : forall st,
  exists more, fst (fold_left (place_node direction) nodes st) = fst st ++ more.
Proof.
  induction nodes as [|n nodes IH]; intros st; cbn [fold_left].
  - exists []. now rewrite app_nil_r.
  - destruct (IH (place_node direction st n)) as [more ->].
    destruct st as [tikz prev], n as [id label]. unfold place_node.
    destruct (Js.eqb prev []); cbn [fst]; eexists; rewrite <- ?app_assoc; reflexivity.
Qed.

Lemma draw_edges_append edges : forall tikz,
  exists more, fold_left draw_edge edges tikz = tikz ++ more.
Proof.
  induction edges as [|e edges IH]; intros tikz; cbn [fold_left].
  - exists []. now rewrite app_nil_r.
  - destruct (IH (draw_edge tikz e)) as [more ->].
    destruct e as [[f t] lab]. unfold draw_edge.
    eexists. rewrite <- ?app_assoc. reflexivity.
Qed.

Lemma has_nonempty (m : NodeMap) k : Map_has m k = true -> m <> [].
Proof. intros H ->. discriminate. Qed.

Lemma graph_lines_nonempty ls : forall st,
  fst st <> [] -> fst (fold_left graph_line ls st) <> [].
Proof.
  induction ls as [|l ls IH]; intros st Hst; [exact Hst|].
  cbn [fold_left]. apply IH. destruct st as [nodes edges]. cbn [fst] in Hst.
  destruct nodes as [|[k v] nodes]; [contradiction|].
  assert (H : Map_has ((k, v) :: nodes) k = true).
  { unfold Map_has. cbn [Map_get].
    replace (Js.eqb k k) with true; [reflexivity|]. symmetry. now apply eqb_eq. }
  apply (graph_line_has _ edges l) in H.
  exact (has_nonempty _ k H).
Qed.

Lemma graph_line_match_nonempty nodes edges l :
  edgeMatch l <> None \/ nodeMatch l <> None ->
  fst (graph_line (nodes, edges) l) <> [].
Proof.
  intros H.
  assert (K : forall (m : NodeMap) k v, Map_set m k v <> []).
  { intros [|[k' v'] m] k v; cbn [Map_set]; [discriminate|].
    destruct (Js.eqb k' k); discriminate. }
  destruct (edgeMatch l) as [[[[f fl] t] tl]|] eqn:Em.
  - assert (Hf : Map_has (fst (graph_line (nodes, edges) l)) f = true).
    { unfold Map_has. rewrite (graph_line_get nodes edges l f fl t tl f Em).
      destruct (str_dec f t), tl, (str_dec f f), fl, (Map_get nodes f); congruence. }
    exact (has_nonempty _ f Hf).
  - destruct H as [H|H]; [contradiction|].
    unfold graph_line. rewrite Em.
    destruct (nodeMatch l) as [[id label]|]; [apply K | contradiction].
Qed.

(** The translator answers with its placeholder comment exactly when no
    line behind the header is an edge or a node declaration; otherwise
    it answers with a picture. *)
Theorem mermaidToTikz_placeholder (mermaid : str) :
  ((forall l, In l (tl (split_nl (trim mermaid))) ->
      edgeMatch l = None /\ nodeMatch l = None) ->
   mermaidToTikz mermaid = lit "% Could not parse mermaid diagram" ++ [NL])
  /\ ((exists l, In l (tl (split_nl (trim mermaid)))
                 /\ (edgeMatch l <> None \/ nodeMatch l <> None)) ->
      startsWith (mermaidToTikz mermaid) (lit "\begin{tikzpicture}") = true).
Proof.
  unfold mermaidToTikz, parse_graph.
  set (ls := tl (split_nl (trim mermaid))).
  split.
  - intros H.
    assert (E : fold_left graph_line ls ([], []) = ([], [])).
    { revert H. generalize ls. induction ls0 as [|l ls0 IH]; intros H; [reflexivity|].
      cbn [fold_left]. destruct (H l (or_introl eq_refl)) as [He Hn].
      unfold graph_line at 2. rewrite He, Hn. apply IH.
      intros x Hx. apply H. now right. }
    rewrite E. reflexivity.
  - intros [l [Hin Hm]].
    assert (Hne : fst (fold_left graph_line ls ([], [])) <> []).
    { apply in_split in Hin. destruct Hin as [l1 [l2 ->]].
      rewrite fold_left_app. cbn [fold_left]. apply graph_lines_nonempty.
      destruct (fold_left graph_line l1 ([], [])) as [nodes edges].
      now apply graph_line_match_nonempty. }
    destruct (fold_left graph_line ls ([], [])) as [nodes edges]. cbn [fst] in Hne.
    destruct nodes as [|n nodes]; [contradiction|].
    match goal with
    | |- context [fold_left (place_node ?d) ?ns ?st] =>
        destruct (place_nodes_append d ns st) as [more Hmore];
        destruct (fold_left (place_node d) ns st) as [tikz prev]
    end.
    cbn [fst] in Hmore. subst tikz.
    match goal with
    | |- context [fold_left draw_edge edges ?t] =>
        destruct (draw_edges_append edges t) as [more2 ->]
    end.
    apply startsWith_iff. eexists.
    rewrite <- !app_assoc. reflexivity.
Qed.

Lemma mermaidToTikz_placeholder_witness :
  mermaidToTikz (lit "graph TD") = lit "% Could not parse mermaid diagram" ++ [NL]
  /\ startsWith (mermaidToTikz labelled_target_graph) (lit "\begin{tikzpicture}") = true.
Proof.
  split.
  - apply (proj1 (mermaidToTikz_placeholder (lit "graph TD"))). intros l [].
  - apply (proj2 (mermaidToTikz_placeholder labelled_target_graph)).
    exists (lit "A --> B[Two]"). split; [vm_compute; now left|].
    left. vm_compute. discriminate.
Defined.

End DiagramMore.

(* ================================================================== *)
(** ** Escaping: what the output never holds *)
(* ================================================================== *)

Section EscapingMore.

Import EscapeSpec ReportSpec.



(** A literal replacement puts nothing into the text but its own
    replacement. *)
Lemma replace_lit_In (p r : str) (c : N) : forall s skip,
  In c (replace_go (m_lit p r) skip s) -> In c s \/ In c r.
Proof.
  induction s as [|x s IH]; intros skip; cbn [replace_go]; [intros []|].
  destruct skip as [|k].
  - unfold m_lit at 1. destruct (startsWith (x :: s) p).
    + intros H. apply in_app_or in H. destruct H as [H|H]; [now right|].
      destruct (IH _ H) as [H'|H']; [left; now right | now right].
    + intros [->|H]; [left; now left|].
      destruct (IH _ H) as [H'|H']; [left; now right | now right].
  - intros H. destruct (IH _ H) as [H'|H']; [left; now right | now right].
Qed.

(** Replacing one code unit everywhere leaves none of it, unless the
    replacement brings it back. *)
Lemma replace_unit_gone (c : N) (r : str) : forall s,
  ~ In c r -> ~ In c (replace_go (m_lit [c] r) 0 s).
Proof.
  intros s Hr. induction s as [|x s IH]; cbn [replace_go]; [intros []|].
  unfold m_lit at 1. cbn [startsWith length].
  destruct (N.eqb_spec x c) as [->|Hx]; cbn [andb Nat.sub].
  - intros H. apply in_app_or in H. destruct H as [H|H]; [now apply Hr | now apply IH].
  - intros [->|H]; [congruence | now apply IH].
Qed.

(** Escaped text holds neither a tilde nor a caret. *)
Theorem escapeLatex_no_tilde_caret (text : str) :
  ~ In TILDE (escapeLatex text) /\ ~ In CARET (escapeLatex text).
Proof.
  assert (Hkeep : forall c u p r, ~ In c u -> ~ In c (lit r) -> ~ In c (esc p r u)).
  { intros c u p r Hu Hr H. unfold esc, replace_all in H.
    apply replace_lit_In in H. tauto. }
  assert (Hgone : forall c p r u, lit p = [c] -> ~ In c (lit r) -> ~ In c (esc p r u)).
  { intros c p r u Hp Hr. unfold esc, replace_all. rewrite Hp.
    now apply replace_unit_gone. }
  assert (Nt : forall r, forallb (fun c => negb (c =? TILDE)%N) (lit r) = true ->
               ~ In TILDE (lit r)).
  { intros r Hr Hin. rewrite forallb_forall in Hr. specialize (Hr _ Hin).
    now rewrite N.eqb_refl in Hr. }
  assert (Nc : forall r, forallb (fun c => negb (c =? CARET)%N) (lit r) = true ->
               ~ In CARET (lit r)).
  { intros r Hr Hin. rewrite forallb_forall in Hr. specialize (Hr _ Hin).
    now rewrite N.eqb_refl in Hr. }
  cbv beta zeta delta [escapeLatex].
  split.
  - do 4 (apply Hkeep; [|apply Nt; reflexivity]).
    apply Hgone; [reflexivity | apply Nt; reflexivity].
  - do 3 (apply Hkeep; [|apply Nc; reflexivity]).
    apply Hgone; [reflexivity | apply Nc; reflexivity].
Qed.

End EscapingMore.

(* ================================================================== *)
(** ** The generator and the exporter together *)
(* ================================================================== *)

Section Generated.

Import MdLatex ReportSpec.

Lemma includes_startsWith (s p : str) : startsWith s p = true -> includes s p = true.
Proof. intros H. destruct s; cbn [includes]; now rewrite H. Qed.

Lemma includes_app_r (a s p : str) :
  includes s p = true -> includes (a ++ s) p = true.
Proof.
  rewrite !includes_iff. intros [x [t ->]]. exists (a ++ x), t.
  now rewrite <- app_assoc.
Qed.

Lemma includes_app_l (s t p : str) :
  includes s p = true -> includes (s ++ t) p = true.
Proof.
  rewrite !includes_iff. intros [x [u ->]]. exists x, (u ++ t).
  now rewrite <- !app_assoc.
Qed.

Ltac find_marker :=
  lazymatch goal with
  | |- includes (lit ?x ++ _) (lit ?x) = true =>
      apply includes_startsWith; apply startsWith_iff; eexists; reflexivity
  | |- includes (_ ++ ?s) _ = true => apply includes_app_r; find_marker
  end.

Lemma preamble_begin_document meta slides options :
  includes (preamble meta slides options) (lit "\begin{document}") = true.
Proof. unfold preamble. find_marker. Qed.

(** Whatever the parsed document holds, the generated LaTeX passes the
    three structural checks of the linter. *)
Theorem generateLatex_structure (meta : Meta) (slides : list Slide)
        (options : FromMdOptions) :
  missingDocumentClass (generateLatex meta slides options) = None
  /\ missingBeginDocument (generateLatex meta slides options) = None
  /\ missingEndDocument (generateLatex meta slides options) = None.
Proof.
  unfold missingDocumentClass, missingBeginDocument, missingEndDocument, generateLatex.
  assert (H1 : includes (preamble meta slides options
                          ++ concat (map slide_latex slides) ++ closing)
                        (lit "\documentclass") = true).
  { apply includes_app_l. apply includes_startsWith. reflexivity. }
  assert (H2 : includes (preamble meta slides options
                          ++ concat (map slide_latex slides) ++ closing)
                        (lit "\begin{document}") = true).
  { apply includes_app_l. apply preamble_begin_document. }
  assert (H3 : includes (preamble meta slides options
                          ++ concat (map slide_latex slides) ++ closing)
                        (lit "\end{document}") = true).
  { apply includes_app_r. apply includes_app_r. reflexivity. }
  rewrite H1, H2, H3. repeat split; reflexivity.
Qed.

(** The converter's output for a small document with frontmatter is the
    deck [generated_deck]; the linter finds nothing in it and returns
    normally, and the exporter extracts its one titled slide. *)
Theorem fromMd_lint_export :
  fromMd demo_md (mkOptions (lit "default") (lit "default")) = generated_deck
  /\ issues (lint (fromMd demo_md (mkOptions (lit "default") (lit "default")))) = []
  /\ exit (lint (fromMd demo_md (mkOptions (lit "default") (lit "default")))) = None
  /\ snd (ExportHtml.parseLatex
            (fromMd demo_md (mkOptions (lit "default") (lit "default"))))
     = [ExportHtml.mkSlide (lit "Intro") (lit "Hello") None].
Proof. repeat split; vm_compute; reflexivity. Qed.

(** Inside a code fence a line that is neither a table row nor a fence
    is appended to the code gathered so far. *)
Lemma md_line_in_fence (st : MdState) (line : str) :
  inCodeBlock st = true -> inTable st = false ->
  is_table_line line = false -> startsWith line FENCE = false ->
  md_line st line
  = mkMd (result st) (inList st) true (codeLanguage st) (codeLines st ++ [line])
         false (tableRows st).
Proof.
  intros Hc Ht Hl Hf. unfold md_line. rewrite Hl, Ht, Hf, Hc. reflexivity.
Qed.

(** Inside a code fence that is never closed, lines that do not look
    like table rows are gathered as code and never reach the output. *)
Theorem mdToLatex_unclosed_fence (ls : list str) : forall st,
  inCodeBlock st = true -> inTable st = false ->
  Forall (fun l => is_table_line l = false /\ startsWith l FENCE = false) ls ->
  md_finish (fold_left md_line ls st) = md_finish st.
Proof.
  induction ls as [|l ls IH]; intros st Hc Ht Hall; [reflexivity|].
  inversion Hall as [|? ? [Hl Hf] Hrest]; subst.
  cbn [fold_left]. rewrite (md_line_in_fence st l Hc Ht Hl Hf).
  rewrite IH by (try assumption; reflexivity).
  unfold md_finish. cbn [result inList inTable tableRows]. now rewrite Ht.
Qed.

Lemma mdToLatex_unclosed_fence_witness :
  md_finish (fold_left md_line [lit "x"; lit "y"]
               (fold_left md_line [lit "text"; lit "```js"] md_init))
  = md_finish (fold_left md_line [lit "text"; lit "```js"] md_init).
Proof.
  apply mdToLatex_unclosed_fence; [reflexivity | reflexivity |].
  repeat (constructor; [split; reflexivity|]). constructor.
Defined.

End Generated.

Section ExporterMore.

Import ExportHtml FrameSpec.

(** A source without a begin-frame marker gives no slide. *)
Theorem parseLatex_no_frame (content : str) :
  includes content BEGIN_FRAME = false -> snd (parseLatex content) = [].
Proof.
  intros Hn. unfold parseLatex. cbn [snd].
  destruct (frames content) as [|[[t b] rest] fs] eqn:E; [reflexivity|].
  exfalso.
  assert (Hin : In (t, b, rest) (frames content)) by (rewrite E; now left).
  unfold frames, matchAll in Hin.
  destruct (matchAll_go_spec frame_at _ _ _ Hin) as [pre [suf [len [-> Hm]]]].
  destruct (frame_at_spec _ _ _ _ _ Hm) as [opt [-> _]].
  assert (Ht : includes (pre ++ BEGIN_FRAME
                           ++ opt ++ LBRACE :: t ++ RBRACE :: b ++ END_FRAME ++ rest)
                        BEGIN_FRAME = true).
  { apply includes_iff. now exists pre, (opt ++ LBRACE :: t ++ RBRACE :: b ++ END_FRAME ++ rest). }
  congruence.
Qed.

Lemma parseLatex_no_frame_witness :
  snd (parseLatex (lit "\documentclass{beamer}")) = [].
Proof. apply parseLatex_no_frame. reflexivity. Defined.

End ExporterMore.
